(** * carvers-guide: orthographic print renderer (script.py)

    A shallow embedding of the geometric core of [script.py]: extents of the
    world-space bounding box, the scale-to-fit solver and the centering step
    of [center_and_align], the camera planner [position_camera], the
    resolution mapper [set_render_settings] and their driver [render_view].

    Python floats are read as exact rationals ([Q]); float comparison is
    [Qeq]/[Qlt].  A value that may be [None] is an [option Q].  Exceptions
    are the left summand of [result].

    Where rounding or the storage of Blender decides a property, the module
    [Binary64] reads the same lines on IEEE 754 binary64 numbers and on
    integer properties that clamp: the scale solver, the render settings,
    the views and the validation of the arguments. *)

From Stdlib Require Import QArith Qminmax Qround Lqa ZArith Lia List String Bool.
From Stdlib Require Import SpecFloat.
Import ListNotations.
Open Scope string_scope.
Open Scope Q_scope.

Set Implicit Arguments.

(** ** Exceptions and the error monad *)

Inductive exn : Type :=
| ValueError (msg : string)
| KeyError (key : string)
| TypeError
| ZeroDivisionError
| OverflowError (msg : string).

Inductive result (A : Type) : Type :=
| Ok (a : A)
| Err (e : exn).

Arguments Ok {A} a.
Arguments Err {A} e.

Definition bind {A B : Type} (m : result A) (k : A -> result B) : result B :=
  match m with
  | Ok a => k a
  | Err e => Err e
  end.

Notation "x <- m ;; k" := (bind m (fun x => k))
  (at level 61, m at next level, right associativity).
Notation "' p <- m ;; k" := (bind m (fun p => k))
  (at level 61, p pattern, m at next level, right associativity).

Definition is_err {A : Type} (m : result A) : bool :=
  match m with
  | Ok _ => false
  | Err _ => true
  end.

(** [for x in l: body], the body may raise. *)
Fixpoint mapM {A B : Type} (f : A -> result B) (l : list A) : result (list B) :=
  match l with
  | [] => Ok []
  | a :: r => b <- f a ;; bs <- mapM f r ;; Ok (b :: bs)
  end.

(** ** Python dictionaries

    A [dict] keeps its items in insertion order.  A subscript [d[k]] raises
    [KeyError] on a missing key, [d.get(k, default)] does not; an assignment
    to an existing key keeps its place, a new key goes last. *)

Definition dict (V : Type) : Type := list (string * V).

Fixpoint dict_lookup {V : Type} (d : dict V) (k : string) : option V :=
  match d with
  | [] => None
  | (k', v) :: r => if String.eqb k' k then Some v else dict_lookup r k
  end.

Definition dict_getitem {V : Type} (d : dict V) (k : string) : result V :=
  match dict_lookup d k with
  | Some v => Ok v
  | None => Err (KeyError k)
  end.

Definition dict_get {V : Type} (d : dict V) (k : string) (default : V) : V :=
  match dict_lookup d k with
  | Some v => v
  | None => default
  end.

Fixpoint dict_setitem {V : Type} (d : dict V) (k : string) (v : V) : dict V :=
  match d with
  | [] => [(k, v)]
  | (k', v') :: r =>
      if String.eqb k' k then (k', v) :: r else (k', v') :: dict_setitem r k v
  end.

Definition dict_keys {V : Type} (d : dict V) : list string := map fst d.

(** The keys of a Python dictionary are pairwise distinct. *)
Definition dict_wf {V : Type} (d : dict V) : Prop := NoDup (dict_keys d).

(** ** Builtins on numbers *)

(** [max(iterable)] and [min(iterable)]: the first extremal element wins; an
    empty iterable raises [ValueError]. *)
Definition py_max (l : list Q) : result Q :=
  match l with
  | [] => Err (ValueError "max() arg is an empty sequence")
  | a :: r => Ok (fold_left Qmax r a)
  end.

Definition py_min (l : list Q) : result Q :=
  match l with
  | [] => Err (ValueError "min() arg is an empty sequence")
  | a :: r => Ok (fold_left Qmin r a)
  end.

(** [a / b] on floats. *)
Definition py_div (a b : Q) : result Q :=
  if Qeq_bool b 0 then Err ZeroDivisionError else Ok (a / b).

(** Arithmetic with an operand that may be [None] raises [TypeError]. *)
Definition py_float (v : option Q) : result Q :=
  match v with
  | Some q => Ok q
  | None => Err TypeError
  end.

(** [max(a, b)] of two values that may be [None]. *)
Definition py_max2 (a b : option Q) : result Q :=
  a' <- py_float a ;; b' <- py_float b ;; Ok (Qmax a' b').

(** [int(q)] truncates towards zero. *)
Definition py_int (q : Q) : Z := Z.quot (Qnum q) (Z.pos (Qden q)).

(** ** The scene graph (Blender's [bpy] and [mathutils])

    The mesh object is known through the eight corners of its local bounding
    box and its location and scale; its rotation is the identity from the
    first [transform_apply] on, and [matrix_world] is current at every read
    (the source calls [view_layer.update()] after each assignment, and
    [transform_apply] commits the transform). *)

Record Vector : Type := mkVector { x : Q; y : Q; z : Q }.

Definition Vzero : Vector := mkVector 0 0 0.
Definition Vone : Vector := mkVector 1 1 1.

Definition Vadd (a b : Vector) : Vector :=
  mkVector (x a + x b) (y a + y b) (z a + z b).

Definition Vmul (a b : Vector) : Vector :=
  mkVector (x a * x b) (y a * y b) (z a * z b).

Definition Vdiv (a : Vector) (q : Q) : Vector :=
  mkVector (x a / q) (y a / q) (z a / q).

Definition Vopp (a : Vector) : Vector :=
  mkVector (- x a) (- y a) (- z a).

(** Float equality, component by component. *)
Definition Veq (a b : Vector) : Prop :=
  x a == x b /\ y a == y b /\ z a == z b.

Record Object : Type := mkObject {
  bound_box : list Vector;
  location : Vector;
  scale : Vector
}.

Definition set_location (obj : Object) (loc : Vector) : Object :=
  mkObject (bound_box obj) loc (scale obj).

Definition set_scale (obj : Object) (s : Vector) : Object :=
  mkObject (bound_box obj) (location obj) s.

(** [obj.matrix_world @ v]. *)
Definition matrix_world (obj : Object) (v : Vector) : Vector :=
  Vadd (location obj) (Vmul (scale obj) v).

(** [bpy.ops.object.transform_apply(location=..., rotation=True, scale=True)]:
    the scale (and the location when asked) is baked into the mesh data and
    reset on the object.  [location] defaults to [True]. *)
Definition transform_apply (apply_location : bool) (obj : Object) : Object :=
  if apply_location then
    mkObject (map (matrix_world obj) (bound_box obj)) Vzero Vone
  else
    mkObject (map (Vmul (scale obj)) (bound_box obj)) (location obj) Vone.

Definition get_bounding_box (obj : Object) : list Vector :=
  map (matrix_world obj) (bound_box obj).

(** ** [center_and_align] *)

(** Lines 169-173: the [model_sizes] dictionary. *)
Definition compute_model_sizes (bbox : list Vector) : result (dict Q) :=
  max_x <- py_max (map x bbox) ;;
  min_x <- py_min (map x bbox) ;;
  max_y <- py_max (map y bbox) ;;
  min_y <- py_min (map y bbox) ;;
  max_z <- py_max (map z bbox) ;;
  min_z <- py_min (map z bbox) ;;
  Ok [("width", max_x - min_x); ("depth", max_y - min_y); ("height", max_z - min_z)].

(** Lines 176-178: the loop over [model_sizes.items()]. *)
Fixpoint validate_sizes (items : list (string * Q)) : result unit :=
  match items with
  | [] => Ok tt
  | (dim, size) :: r =>
      if Qeq_bool size 0
      then Err (ValueError ("Model " ++ dim ++ " is zero, cannot scale."))
      else validate_sizes r
  end.

Definition is_not_None {A : Type} (v : option A) : bool :=
  match v with
  | Some _ => true
  | None => false
  end.

(** Line 185. *)
Definition provided_dims (target_dims : dict (option Q)) : nat :=
  List.length (filter (fun kv => is_not_None (snd kv)) target_dims).

(** Line 190: the list comprehension over the keys of [target_dims]. *)
Fixpoint scales_of (model_sizes : dict Q) (target_dims : dict (option Q))
    (keys : list string) : result (list Q) :=
  match keys with
  | [] => Ok []
  | dim :: r =>
      v <- dict_getitem target_dims dim ;;
      match v with
      | None => scales_of model_sizes target_dims r
      | Some t =>
          e <- dict_getitem model_sizes dim ;;
          s <- py_div t e ;;
          rest <- scales_of model_sizes target_dims r ;;
          Ok (s :: rest)
      end
  end.

(** Lines 192-193: the loop over the three axes. *)
Fixpoint resolve_dims (model_sizes : dict Q) (target_dims : dict (option Q))
    (scale : Q) (dims : list string) (final_target_dims : dict (option Q))
    : result (dict (option Q)) :=
  match dims with
  | [] => Ok final_target_dims
  | dim :: r =>
      e <- dict_getitem model_sizes dim ;;
      resolve_dims model_sizes target_dims scale r
        (dict_setitem final_target_dims dim
           (dict_get target_dims dim (Some (e * scale))))
  end.

(** Lines 181-193: the scale solver.  It yields [final_target_dims] and
    [scale]. *)
Definition scale_solver (model_sizes : dict Q) (target_dims : dict (option Q))
    : result (dict (option Q) * Q) :=
  let final_target_dims : dict (option Q) :=
    [("width", None); ("depth", None); ("height", None)] in
  if Nat.eqb (provided_dims target_dims) 0 then
    Ok (map (fun kv => (fst kv, Some (snd kv))) model_sizes, 1)
  else
    scales <- scales_of model_sizes target_dims (dict_keys target_dims) ;;
    scale <- py_min scales ;;
    final_target_dims <-
      resolve_dims model_sizes target_dims scale ["width"; "depth"; "height"]
        final_target_dims ;;
    Ok (final_target_dims, scale).

(** Line 200: [sum(bbox, Vector((0, 0, 0))) / 8.0]. *)
Definition bbox_center (bbox : list Vector) : Vector :=
  Vdiv (fold_left Vadd bbox Vzero) 8.

Definition center_and_align (obj : Object) (target_dims : option (dict (option Q)))
    : result (Object * dict (option Q) * dict Q) :=
  let obj := transform_apply false obj in
  let obj := set_location obj Vzero in
  let bbox := get_bounding_box obj in
  model_sizes <- compute_model_sizes bbox ;;
  _ <- validate_sizes model_sizes ;;
  let target_dims : dict (option Q) :=
    match target_dims with
    | Some (kv :: r) => kv :: r
    | _ => []
    end in
  '(final_target_dims, scale) <- scale_solver model_sizes target_dims ;;
  let obj := set_scale obj (mkVector scale scale scale) in
  let obj := transform_apply true obj in
  let bbox := get_bounding_box obj in
  let center := bbox_center bbox in
  let obj := set_location obj (Vopp center) in
  let scaled_dims := map (fun kv => (fst kv, snd kv * scale)) model_sizes in
  Ok (obj, final_target_dims, scaled_dims).

(** Lines 163-173: the [model_sizes] that [center_and_align] computes. *)
Definition extents (obj : Object) : result (dict Q) :=
  compute_model_sizes
    (get_bounding_box (set_location (transform_apply false obj) Vzero)).

(** Lines 163-198: the object once the scale [s] has been applied. *)
Definition scaled_object (obj : Object) (s : Q) : Object :=
  transform_apply true
    (set_scale (set_location (transform_apply false obj) Vzero)
       (mkVector s s s)).

(** ** Cameras, render settings and [CONFIG] *)

(** Angles are kept in degrees: [math.radians(90)] is [90]. *)
Record Camera : Type := mkCamera {
  cam_location : Z * Z * Z;
  rotation_euler : Z * Z * Z;
  ortho_scale : Q
}.

(** [scene.render], holding the integers that the script assigns. *)
Record Scene : Type := mkScene {
  resolution_x : Z;
  resolution_y : Z;
  resolution_percentage : Z;
  file_format : string;
  filepath : string
}.

Record Config : Type := mkConfig {
  output_dir : string;
  dpi : Z;
  views : dict (dict string);
  camera_views : dict ((Z * Z * Z) * (Z * Z * Z))
}.

Definition CONFIG : Config := {|
  output_dir := "output";
  dpi := 300;
  views := [
    ("front", [("width", "width"); ("height", "height")]);
    ("back", [("width", "width"); ("height", "height")]);
    ("left", [("width", "depth"); ("height", "height")]);
    ("right", [("width", "depth"); ("height", "height")]);
    ("top", [("width", "width"); ("height", "depth")])
  ];
  camera_views := [
    ("front", ((0, 200, 0), (90, 0, 180)));
    ("back", ((0, -200, 0), (90, 0, 0)));
    ("left", ((200, 0, 0), (90, 0, 90)));
    ("right", ((-200, 0, 0), (90, 0, -90)));
    ("top", ((0, 0, 200), (0, 0, 0)))
  ]%Z
|}.

(** [view_name in [...]] *)
Definition str_in (s : string) (l : list string) : bool :=
  existsb (String.eqb s) l.

Definition position_camera (cam : Camera) (view_name : string)
    (dimensions : dict (option Q))
    (camera_config : dict ((Z * Z * Z) * (Z * Z * Z))) : result Camera :=
  '(loc, rot) <- dict_getitem camera_config view_name ;;
  s <- (if str_in view_name ["front"; "back"] then
          a <- dict_getitem dimensions "width" ;;
          b <- dict_getitem dimensions "height" ;;
          py_max2 a b
        else if str_in view_name ["left"; "right"] then
          a <- dict_getitem dimensions "depth" ;;
          b <- dict_getitem dimensions "height" ;;
          py_max2 a b
        else
          a <- dict_getitem dimensions "width" ;;
          b <- dict_getitem dimensions "depth" ;;
          py_max2 a b) ;;
  Ok (mkCamera loc rot s).

(** [int(mm * dpi / 25.4)], in exact arithmetic. *)
Definition mm_to_pixels (mm : Q) (dpi : Z) : Z :=
  py_int (mm * inject_Z dpi / (254 # 10)).

Definition set_render_settings (scene : Scene) (view_name : string)
    (width_mm height_mm : option Q) (dpi : Z) (output_dir : string)
    : result Scene :=
  w <- py_float width_mm ;;
  let resolution_x := mm_to_pixels w dpi in
  h <- py_float height_mm ;;
  let resolution_y := mm_to_pixels h dpi in
  Ok (mkScene resolution_x resolution_y 100 "PNG"
        (output_dir ++ "/" ++ view_name ++ ".png")).

Definition render_view (view_name : string) (cam : Camera) (scene : Scene)
    (dimensions : dict (option Q)) (config : Config)
    : result (Camera * Scene) :=
  view <- dict_getitem (views config) view_name ;;
  width_axis <- dict_getitem view "width" ;;
  width_mm <- dict_getitem dimensions width_axis ;;
  view <- dict_getitem (views config) view_name ;;
  height_axis <- dict_getitem view "height" ;;
  height_mm <- dict_getitem dimensions height_axis ;;
  cam <- position_camera cam view_name dimensions (camera_views config) ;;
  scene <- set_render_settings scene view_name width_mm height_mm
             (dpi config) (output_dir config) ;;
  Ok (cam, scene).

(** Lines 331-335: the dictionary comprehension of [render_model]. *)
Definition target_dims_of (block_width block_height block_depth : option Q)
    : dict (option Q) :=
  flat_map
    (fun kv => match snd kv with
               | Some value => [(fst kv, Some value)]
               | None => []
               end)
    [("width", block_width); ("height", block_height); ("depth", block_depth)].

(** Line 219: the scale of the wireframe block. *)
Definition add_block_frame (dimensions : dict (option Q)) : result Vector :=
  w <- dict_getitem dimensions "width" ;;
  w <- py_float w ;;
  d <- dict_getitem dimensions "depth" ;;
  d <- py_float d ;;
  h <- dict_getitem dimensions "height" ;;
  h <- py_float h ;;
  Ok (mkVector (w / 2) (d / 2) (h / 2)).

(** The loop of [render_model] over [config["views"]]: one camera and scene
    state per rendered view. *)
Fixpoint render_views (view_names : list string) (cam : Camera) (scene : Scene)
    (dimensions : dict (option Q)) (config : Config)
    : result (list (string * Camera * Scene)) :=
  match view_names with
  | [] => Ok []
  | view_name :: r =>
      '(cam, scene) <- render_view view_name cam scene dimensions config ;;
      rest <- render_views r cam scene dimensions config ;;
      Ok ((view_name, cam, scene) :: rest)
  end.

(** [render_model] from the imported mesh object on. *)
Definition render_model (obj : Object)
    (block_width block_height block_depth : option Q) (config : Config)
    (cam : Camera) (scene : Scene)
    : result (dict (option Q) * list (string * Camera * Scene)) :=
  let target_dims := target_dims_of block_width block_height block_depth in
  '(_, final_target_dims, _) <- center_and_align obj (Some target_dims) ;;
  _ <- add_block_frame final_target_dims ;;
  rendered <- render_views (dict_keys (views config)) cam scene
                final_target_dims config ;;
  Ok (final_target_dims, rendered).

(** ** Sample inputs *)

(** An axis-aligned box from its two extreme corners, as Blender lists the
    eight corners of [bound_box]. *)
Definition box (lo hi : Vector) : list Vector :=
  [ mkVector (x lo) (y lo) (z lo); mkVector (x lo) (y lo) (z hi);
    mkVector (x lo) (y hi) (z hi); mkVector (x lo) (y hi) (z lo);
    mkVector (x hi) (y lo) (z lo); mkVector (x hi) (y lo) (z hi);
    mkVector (x hi) (y hi) (z hi); mkVector (x hi) (y hi) (z lo) ].

Definition sample_obj : Object :=
  mkObject (box (mkVector 10 0 (-5)) (mkVector 60 30 75)) (mkVector 3 4 5) Vone.

Definition blank_cam : Camera := mkCamera (0, 0, 0)%Z (0, 0, 0)%Z 0.
Definition blank_scene : Scene := mkScene 1920 1080 100 "PNG" "".

(** ** The words of the specification (section 4.2) *)

(** [model_sizes] for extents [w], [d], [h]. *)
Definition sizes (w d h : Q) : dict Q :=
  [("width", w); ("depth", d); ("height", h)].

(** The candidate ratio [T[a] / E[a]] of an axis, when the caller set it. *)
Definition ratio (t : option Q) (e : Q) : list Q :=
  match t with
  | Some t => [t / e]
  | None => []
  end.

(** The candidate ratios of the set axes. *)
Definition set_ratios (w d h : Q) (bw bh bd : option Q) : list Q :=
  ratio bw w ++ ratio bh h ++ ratio bd d.

(** [m] is the minimum of [l]. *)
Definition is_min (m : Q) (l : list Q) : Prop :=
  In m l /\ forall r, In r l -> m <= r.

(** The final dimension of an axis: the target when set, the scaled extent
    otherwise. *)
Definition resolved (t : option Q) (e s : Q) : Q :=
  match t with
  | Some t => t
  | None => e * s
  end.

(** A set axis of the envelope is strictly positive. *)
Definition positive_if_set (t : option Q) : Prop :=
  match t with
  | Some t => 0 < t
  | None => True
  end.

(** The arithmetic mean of a list of points (section 4.3). *)
Definition mean (l : list Vector) : Vector :=
  Vdiv (fold_left Vadd l Vzero) (inject_Z (Z.of_nat (List.length l))).

(** The error of lines 176-178 for the axis [dim]. *)
Definition zero_model_error (dim : string) : exn :=
  ValueError ("Model " ++ dim ++ " is zero, cannot scale.").

(** The computation does not end in a division by zero. *)
Definition no_zero_division {A : Type} (m : result A) : Prop :=
  m <> Err ZeroDivisionError.

(** A mesh that is flat along Z. *)
Definition flat_obj : Object :=
  mkObject (box (mkVector 0 0 0) (mkVector 10 20 0)) Vzero Vone.

(** The corners read at line 168, and those read at line 168 of a second
    call on the object that a first call scaled by [s]. *)
Definition first_bbox_point (obj : Object) (v : Vector) : Vector :=
  Vadd Vzero (Vmul Vone (Vmul (scale obj) v)).

Definition second_bbox_point (obj : Object) (s : Q) (v : Vector) : Vector :=
  Vadd Vzero
    (Vmul Vone
       (Vmul Vone (Vadd Vzero (Vmul (mkVector s s s) (Vmul (scale obj) v))))).

(** ** The command line, the Blender version and the import

    [argparse], [pathlib] and the glTF importer are outside the script: the
    parsed namespace, what the script asks of the model path, and the
    objects that the importer leaves selected are inputs here. *)

(** Line 73: [version < MINIMUM_BLENDER_VERSION] on tuples. *)
Definition MINIMUM_BLENDER_VERSION : Z * Z * Z := (4, 0, 0)%Z.

Definition tuple_lt (a b : Z * Z * Z) : bool :=
  let '(a1, a2, a3) := a in
  let '(b1, b2, b3) := b in
  if negb (Z.eqb a1 b1) then Z.ltb a1 b1
  else if negb (Z.eqb a2 b2) then Z.ltb a2 b2
  else Z.ltb a3 b3.

(** What the script raises above [center_and_align]: the [RuntimeError] of
    line 74 and the [ValueError]s of lines 116-127, with the fields of their
    messages, and the exceptions of the core. *)
Inductive failure : Type :=
| UnsupportedVersion (version minimum : Z * Z * Z)
| ModelMissing
| BadExtension (suffix : string)
| NoDimension
| NotPositive (dim : string) (value : Q)
| Raised (e : exn).

Definition check_blender_version (version : Z * Z * Z) : option failure :=
  if tuple_lt version MINIMUM_BLENDER_VERSION
  then Some (UnsupportedVersion version MINIMUM_BLENDER_VERSION)
  else None.

(** Lines 106-110: the arguments after the first ['--'], or all but the
    program name. *)
Fixpoint list_index (x : string) (l : list string) : option nat :=
  match l with
  | [] => None
  | a :: r =>
      if String.eqb a x then Some 0%nat
      else match list_index x r with
           | Some i => Some (S i)
           | None => None
           end
  end.

Definition script_args (argv : list string) : list string :=
  match list_index "--" argv with
  | Some separator_index => skipn (separator_index + 1) argv
  | None => skipn 1 argv
  end.

(** [str.lower()] on ASCII text. *)
Definition ascii_lower (c : Ascii.ascii) : Ascii.ascii :=
  let n := Ascii.nat_of_ascii c in
  if andb (Nat.leb 65 n) (Nat.leb n 90) then Ascii.ascii_of_nat (n + 32) else c.

Fixpoint lower (s : string) : string :=
  match s with
  | EmptyString => EmptyString
  | String c r => String (ascii_lower c) (lower r)
  end.

Definition SUPPORTED_EXTENSIONS : list string := [".glb"; ".gltf"].

(** The namespace that [parser.parse_args] returns, with [args.model] seen
    through [exists()] and [suffix]. *)
Record Namespace : Type := mkNamespace {
  model_exists : bool;
  model_suffix : string;
  block_width : option Q;
  block_height : option Q;
  block_depth : option Q
}.

(** Lines 125-127, on exact rationals; [Binary64.validate_positive] has the
    same lines on binary64 numbers, [nan] included. *)
Fixpoint validate_positive (dims : list (string * option Q)) : option failure :=
  match dims with
  | [] => None
  | (dim, value) :: r =>
      match value with
      | Some v =>
          if Qle_bool v 0 then Some (NotPositive dim v) else validate_positive r
      | None => validate_positive r
      end
  end.

(** Lines 114-130 of [parse_arguments]. *)
Definition validate_arguments (args : Namespace)
    : failure + (option Q * option Q * option Q) :=
  if negb (model_exists args) then inl ModelMissing
  else if negb (str_in (lower (model_suffix args)) SUPPORTED_EXTENSIONS)
  then inl (BadExtension (model_suffix args))
  else if forallb (fun arg => negb (is_not_None arg))
            [block_width args; block_height args; block_depth args]
  then inl NoDimension
  else
    match validate_positive
            [("width", block_width args); ("height", block_height args);
             ("depth", block_depth args)] with
    | Some e => inl e
    | None => inr (block_width args, block_height args, block_depth args)
    end.

(** An object of the scene: its [type] and, for a mesh, its geometry. *)
Record SceneObject : Type := mkSceneObject {
  obj_type : string;
  geometry : Object
}.

(** Lines 148-152 of [import_model]. *)
Definition import_model (selected_objects : list SceneObject) : result Object :=
  match find (fun o => String.eqb (obj_type o) "MESH") selected_objects with
  | Some o => Ok (geometry o)
  | None => Err (ValueError "No mesh object found in the imported model.")
  end.

(** The three axes of lines 169-173 and 192. *)
Definition axes : list string := ["width"; "depth"; "height"].

(** A key of [target_dims] whose value is not [None] and that is none of
    the three axes. *)
Definition stray_key (target_dims : dict (option Q)) (k : string) : Prop :=
  exists t, dict_lookup target_dims k = Some (Some t) /\ ~ In k axes.

(** ** Binary64 and what Blender stores

    The definitions above read floats as exact rationals and keep in the
    scene the integer that the script assigns.  This module reads the same
    lines on IEEE 754 binary64 numbers, every operation rounded to nearest
    even, and lets an integer property of Blender keep what Blender keeps:
    an integer outside the range of a C [int] is refused with [ValueError],
    any other is clamped to the range of the property. *)

Module Binary64.

Definition float : Type := spec_float.

Definition prec : Z := 53.
Definition emax : Z := 1024.

Definition mul : float -> float -> float := SFmul prec emax.
Definition div : float -> float -> float := SFdiv prec emax.
Definition ltb : float -> float -> bool := SFltb.
Definition leb : float -> float -> bool := SFleb.
Definition eqb : float -> float -> bool := SFeqb.

(** The binary64 number nearest to the integer [z]. *)
Definition of_int (z : Z) : float := binary_normalize prec emax z 0 false.

(** The literals [25.4] and [1.0]. *)
Definition c25_4 : float := div (of_int 254) (of_int 10).
Definition one : float := of_int 1.

(** The rational that a finite number is. *)
Definition value (f : float) : option Q :=
  match f with
  | S754_zero _ => Some 0
  | S754_finite s m e =>
      let v := match e with
               | Zneg p => Z.pos m # Pos.pow 2 p
               | _ => inject_Z (Z.pos m * 2 ^ e)
               end in
      Some (if s then - v else v)
  | _ => None
  end.

Definition is_zero (f : float) : bool :=
  match f with
  | S754_zero _ => true
  | _ => false
  end.

(** [float(z)] inside a mixed operation. *)
Definition float_of_int (z : Z) : result float :=
  match of_int z with
  | S754_infinity _ => Err (OverflowError "int too large to convert to float")
  | f => Ok f
  end.

(** [int(f)]. *)
Definition int_of_float (f : float) : result Z :=
  match value f with
  | Some v => Ok (py_int v)
  | None =>
      match f with
      | S754_nan => Err (ValueError "cannot convert float NaN to integer")
      | _ => Err (OverflowError "cannot convert float infinity to integer")
      end
  end.

(** [a / b] on floats. *)
Definition float_div (a b : float) : result float :=
  if is_zero b then Err ZeroDivisionError else Ok (div a b).

(** [min(iterable)] on floats. *)
Definition float_min (l : list float) : result float :=
  match l with
  | [] => Err (ValueError "min() arg is an empty sequence")
  | a :: r => Ok (fold_left (fun acc item => if ltb item acc then item else acc) r a)
  end.

Definition some_float (v : option float) : result float :=
  match v with
  | Some f => Ok f
  | None => Err TypeError
  end.

(** [max(a, b)] of two values that may be [None]. *)
Definition float_max2 (a b : option float) : result float :=
  a' <- some_float a ;; b' <- some_float b ;;
  Ok (if ltb a' b' then b' else a').

(** *** The scale solver, lines 181-204 *)

Fixpoint scales_of (model_sizes : dict float) (target_dims : dict (option float))
    (keys : list string) : result (list float) :=
  match keys with
  | [] => Ok []
  | dim :: r =>
      v <- dict_getitem target_dims dim ;;
      match v with
      | None => scales_of model_sizes target_dims r
      | Some t =>
          e <- dict_getitem model_sizes dim ;;
          s <- float_div t e ;;
          rest <- scales_of model_sizes target_dims r ;;
          Ok (s :: rest)
      end
  end.

Fixpoint resolve_dims (model_sizes : dict float)
    (target_dims : dict (option float)) (scale : float) (dims : list string)
    (final_target_dims : dict (option float)) : result (dict (option float)) :=
  match dims with
  | [] => Ok final_target_dims
  | dim :: r =>
      e <- dict_getitem model_sizes dim ;;
      resolve_dims model_sizes target_dims scale r
        (dict_setitem final_target_dims dim
           (dict_get target_dims dim (Some (mul e scale))))
  end.

Definition scale_solver (model_sizes : dict float)
    (target_dims : dict (option float)) : result (dict (option float) * float) :=
  let final_target_dims : dict (option float) :=
    [("width", None); ("depth", None); ("height", None)] in
  if Nat.eqb
       (List.length (filter (fun kv => is_not_None (snd kv)) target_dims)) 0
  then Ok (map (fun kv => (fst kv, Some (snd kv))) model_sizes, one)
  else
    scales <- scales_of model_sizes target_dims (dict_keys target_dims) ;;
    scale <- float_min scales ;;
    final_target_dims <-
      resolve_dims model_sizes target_dims scale ["width"; "depth"; "height"]
        final_target_dims ;;
    Ok (final_target_dims, scale).

(** Line 204. *)
Definition scaled_dims (model_sizes : dict float) (scale : float) : dict float :=
  map (fun kv => (fst kv, mul (snd kv) scale)) model_sizes.

Definition sizes (w d h : float) : dict float :=
  [("width", w); ("depth", d); ("height", h)].

(** *** Render settings, lines 299-306 *)

Definition INT_MIN : Z := -2147483648.
Definition INT_MAX : Z := 2147483647.

(** An assignment to an integer property whose range is [lo .. hi]: what the
    property then holds. *)
Definition set_int_property (lo hi v : Z) : result Z :=
  if (v <? INT_MIN)%Z || (INT_MAX <? v)%Z
  then Err (ValueError "value not in 'int' range")
  else Ok (Z.max lo (Z.min hi v)).

(** The binary64 number that [mm * dpi / 25.4] is, for a [dpi] that
    converts. *)
Definition pixel_quotient (mm : float) (dpi : Z) : float :=
  div (mul mm (of_int dpi)) c25_4.

(** [int(mm * dpi / 25.4)] *)
Definition mm_to_pixels (mm : float) (dpi : Z) : result Z :=
  d <- float_of_int dpi ;;
  int_of_float (div (mul mm d) c25_4).

(** What the resolution properties, of range 4 .. 65536, keep of [n]. *)
Definition clamp_resolution (n : Z) : Z := Z.max 4 (Z.min 65536 n).

(** [scene.render]; [filepath] keeps the two operands of [output_dir / name],
    the join being pathlib's. *)
Record Scene : Type := mkScene {
  resolution_x : Z;
  resolution_y : Z;
  resolution_percentage : Z;
  file_format : string;
  filepath : string * string
}.

Definition set_render_settings (scene : Scene) (view_name : string)
    (width_mm height_mm : option float) (dpi : Z) (output_dir : string)
    : result Scene :=
  w <- some_float width_mm ;;
  x <- mm_to_pixels w dpi ;;
  resolution_x <- set_int_property 4 65536 x ;;
  h <- some_float height_mm ;;
  y <- mm_to_pixels h dpi ;;
  resolution_y <- set_int_property 4 65536 y ;;
  Ok (mkScene resolution_x resolution_y 100 "PNG"
        (output_dir, view_name ++ ".png")).

(** *** Cameras and views, lines 281-315 *)

(** [ortho_scale] is the number assigned; Blender keeps it in single
    precision. *)
Record Camera : Type := mkCamera {
  cam_location : Z * Z * Z;
  rotation_euler : Z * Z * Z;
  ortho_scale : float
}.

Definition position_camera (cam : Camera) (view_name : string)
    (dimensions : dict (option float))
    (camera_config : dict ((Z * Z * Z) * (Z * Z * Z))) : result Camera :=
  '(loc, rot) <- dict_getitem camera_config view_name ;;
  s <- (if str_in view_name ["front"; "back"] then
          a <- dict_getitem dimensions "width" ;;
          b <- dict_getitem dimensions "height" ;;
          float_max2 a b
        else if str_in view_name ["left"; "right"] then
          a <- dict_getitem dimensions "depth" ;;
          b <- dict_getitem dimensions "height" ;;
          float_max2 a b
        else
          a <- dict_getitem dimensions "width" ;;
          b <- dict_getitem dimensions "depth" ;;
          float_max2 a b) ;;
  Ok (mkCamera loc rot s).

Definition render_view (view_name : string) (cam : Camera) (scene : Scene)
    (dimensions : dict (option float)) (config : Config)
    : result (Camera * Scene) :=
  view <- dict_getitem (views config) view_name ;;
  width_axis <- dict_getitem view "width" ;;
  width_mm <- dict_getitem dimensions width_axis ;;
  view <- dict_getitem (views config) view_name ;;
  height_axis <- dict_getitem view "height" ;;
  height_mm <- dict_getitem dimensions height_axis ;;
  cam <- position_camera cam view_name dimensions (camera_views config) ;;
  scene <- set_render_settings scene view_name width_mm height_mm
             (dpi config) (output_dir config) ;;
  Ok (cam, scene).

(** *** The arguments, lines 114-130 *)

Inductive failure : Type :=
| ModelMissing
| BadExtension (suffix : string)
| NoDimension
| NotPositive (dim : string) (value : float).

Record Namespace : Type := mkNamespace {
  model_exists : bool;
  model_suffix : string;
  block_width : option float;
  block_height : option float;
  block_depth : option float
}.

Fixpoint validate_positive (dims : list (string * option float))
    : option failure :=
  match dims with
  | [] => None
  | (dim, value) :: r =>
      match value with
      | Some v =>
          if leb v (S754_zero false) then Some (NotPositive dim v)
          else validate_positive r
      | None => validate_positive r
      end
  end.

Definition validate_arguments (args : Namespace)
    : failure + (option float * option float * option float) :=
  if negb (model_exists args) then inl ModelMissing
  else if negb (str_in (lower (model_suffix args)) SUPPORTED_EXTENSIONS)
  then inl (BadExtension (model_suffix args))
  else if forallb (fun arg => negb (is_not_None arg))
            [block_width args; block_height args; block_depth args]
  then inl NoDimension
  else
    match validate_positive
            [("width", block_width args); ("height", block_height args);
             ("depth", block_depth args)] with
    | Some e => inl e
    | None => inr (block_width args, block_height args, block_depth args)
    end.

(** A number that is strictly positive, an infinity included. *)
Definition positive (f : float) : Prop :=
  match f with
  | S754_finite false _ _ | S754_infinity false => True
  | _ => False
  end.

(** A strictly positive finite number. *)
Definition positive_finite (f : float) : Prop :=
  match f with
  | S754_finite false _ _ => True
  | _ => False
  end.

(** The number is [+0], [-0] or has the sign [s]; it is not [nan]. *)
Definition signed (s : bool) (f : float) : Prop :=
  match f with
  | S754_zero _ => True
  | S754_infinity s' | S754_finite s' _ _ => s' = s
  | S754_nan => False
  end.

(** The decimal [n / 10 ^ k] as the parser of float literals rounds it. *)
Definition decimal (n : Z) (k : Z) : float := div (of_int n) (of_int (10 ^ k)).

End Binary64.

(** A scene before any view is set up. *)
Definition blank_scene64 : Binary64.Scene :=
  Binary64.mkScene 1920 1080 100 "PNG" ("", "").

(** A dimension that the check [value <= 0] of line 126 lets through: it is
    not given, or it is strictly positive, or it is [nan]. *)
Definition accepted_dimension (v : option Binary64.float) : Prop :=
  match v with
  | Some f => Binary64.positive f \/ f = S754_nan
  | None => True
  end.

(** The rational that a finite binary64 number is, and 0 for the others. *)
Definition value_or_zero (f : Binary64.float) : Q :=
  match Binary64.value f with
  | Some v => v
  | None => 0
  end.

(** * Proofs *)

(** ** Builtins *)

Lemma Qeq_bool_nonzero (e : Q) : ~ e == 0 -> Qeq_bool e 0 = false.
Proof.
  intros H. destruct (Qeq_bool e 0) eqn:E; [|reflexivity].
  apply Qeq_bool_eq in E. contradiction.
Qed.

Lemma py_div_nonzero (t e : Q) : ~ e == 0 -> py_div t e = Ok (t / e).
Proof. intros H. unfold py_div. now rewrite Qeq_bool_nonzero. Qed.

Lemma pos_nonzero (e : Q) : 0 < e -> ~ e == 0.
Proof. intros H E. rewrite E in H. now apply Qlt_irrefl in H. Qed.

Lemma Qmin_cases (a b : Q) : Qmin a b = a \/ Qmin a b = b.
Proof.
  unfold Qmin, GenericMinMax.gmin. destruct (a ?= b); auto.
Qed.

Lemma Qmax_cases (a b : Q) : Qmax a b = a \/ Qmax a b = b.
Proof.
  unfold Qmax, GenericMinMax.gmax. destruct (a ?= b); auto.
Qed.

Lemma fold_min_in (l : list Q) (a : Q) : In (fold_left Qmin l a) (a :: l).
Proof.
  revert a. induction l as [|b l IH]; intros a; simpl.
  - now left.
  - destruct (IH (Qmin a b)) as [H|H].
    + destruct (Qmin_cases a b) as [E|E]; rewrite E in *; auto.
    + auto.
Qed.

Lemma fold_min_le_init (l : list Q) (a : Q) : fold_left Qmin l a <= a.
Proof.
  revert a. induction l as [|b l IH]; intros a; simpl.
  - apply Qle_refl.
  - apply Qle_trans with (Qmin a b); [apply IH | apply Q.le_min_l].
Qed.

Lemma fold_min_le (l : list Q) (a r : Q) :
  In r (a :: l) -> fold_left Qmin l a <= r.
Proof.
  revert a. induction l as [|b l IH]; intros a H.
  - destruct H as [H|[]]. rewrite <- H. apply Qle_refl.
  - destruct H as [H|[H|H]].
    + rewrite <- H. apply fold_min_le_init.
    + rewrite <- H. simpl.
      apply Qle_trans with (Qmin a b); [apply fold_min_le_init | apply Q.le_min_r].
    + simpl. apply IH. now right.
Qed.

Lemma py_min_is_min (l : list Q) (m : Q) : py_min l = Ok m -> is_min m l.
Proof.
  destruct l as [|a l]; simpl; [discriminate|].
  intros [= <-]. split.
  - apply fold_min_in.
  - intros r. apply fold_min_le.
Qed.

Lemma py_min_nonempty (l : list Q) : l <> [] -> exists m, py_min l = Ok m.
Proof.
  destruct l as [|a l]; [congruence|]. intros _. simpl. eauto.
Qed.

(** ** The scale solver on the dictionary built by [render_model] *)

Section Solver.

Variables w d h : Q.
Hypothesis Hw : ~ w == 0.
Hypothesis Hd : ~ d == 0.
Hypothesis Hh : ~ h == 0.

Lemma scales_of_target_dims (bw bh bd : option Q) :
  scales_of (sizes w d h) (target_dims_of bw bh bd)
    (dict_keys (target_dims_of bw bh bd))
  = Ok (set_ratios w d h bw bh bd).
Proof.
  destruct bw as [tw|], bh as [th|], bd as [td|]; cbn;
    unfold py_div; rewrite ?(Qeq_bool_nonzero Hw), ?(Qeq_bool_nonzero Hd),
      ?(Qeq_bool_nonzero Hh); reflexivity.
Qed.

Lemma resolve_dims_target_dims (bw bh bd : option Q) (s : Q) :
  resolve_dims (sizes w d h) (target_dims_of bw bh bd) s
    ["width"; "depth"; "height"]
    [("width", None); ("depth", None); ("height", None)]
  = Ok [("width", Some (resolved bw w s)); ("depth", Some (resolved bd d s));
        ("height", Some (resolved bh h s))].
Proof.
  destruct bw as [tw|], bh as [th|], bd as [td|]; reflexivity.
Qed.

Lemma provided_dims_target_dims (bw bh bd : option Q) :
  provided_dims (target_dims_of bw bh bd)
  = List.length (set_ratios w d h bw bh bd).
Proof.
  destruct bw as [tw|], bh as [th|], bd as [td|]; reflexivity.
Qed.

Lemma scale_solver_unset :
  scale_solver (sizes w d h) (target_dims_of None None None)
  = Ok ([("width", Some w); ("depth", Some d); ("height", Some h)], 1).
Proof. reflexivity. Qed.

Lemma scale_solver_set (bw bh bd : option Q) :
  set_ratios w d h bw bh bd <> [] ->
  exists s,
    py_min (set_ratios w d h bw bh bd) = Ok s /\
    scale_solver (sizes w d h) (target_dims_of bw bh bd)
    = Ok ([("width", Some (resolved bw w s)); ("depth", Some (resolved bd d s));
           ("height", Some (resolved bh h s))], s).
Proof.
  intros Hne. destruct (py_min_nonempty Hne) as [s Hs].
  exists s. split; [exact Hs|].
  unfold scale_solver. rewrite provided_dims_target_dims.
  destruct (set_ratios w d h bw bh bd) as [|r rs] eqn:E; [congruence|].
  cbn [List.length Nat.eqb]. rewrite scales_of_target_dims, E.
  cbn [bind]. rewrite Hs. cbn [bind].
  rewrite resolve_dims_target_dims. reflexivity.
Qed.

End Solver.

(** ** Arithmetic of the ratios *)

Lemma ratio_bound (t e s : Q) : 0 < e -> s <= t / e -> e * s <= t.
Proof.
  intros He Hs.
  rewrite <- (Qmult_div_r t e (pos_nonzero He)).
  apply Qmult_le_l; assumption.
Qed.

Lemma ratio_tight (t e s : Q) : 0 < e -> s == t / e -> e * s == t.
Proof.
  intros He Hs. rewrite Hs. apply Qmult_div_r, pos_nonzero, He.
Qed.

Lemma ratio_pos (t e : Q) : 0 < e -> 0 < t -> 0 < t / e.
Proof.
  intros He Ht. apply Qlt_shift_div_l; [assumption|]. now rewrite Qmult_0_l.
Qed.

Lemma in_ratio (r : Q) (t : option Q) (e : Q) :
  In r (ratio t e) <-> exists tv, t = Some tv /\ r = tv / e.
Proof.
  destruct t as [tv|]; simpl; split.
  - intros [<-|[]]. eauto.
  - intros (tv' & [= <-] & ->). now left.
  - intros [].
  - intros (tv' & [=] & _).
Qed.

Lemma in_set_ratios (r w d h : Q) (bw bh bd : option Q) :
  In r (set_ratios w d h bw bh bd) <->
  In r (ratio bw w) \/ In r (ratio bh h) \/ In r (ratio bd d).
Proof. unfold set_ratios. now rewrite !in_app_iff. Qed.

Lemma resolved_ge (t : option Q) (e s : Q) :
  0 < e -> (forall r, In r (ratio t e) -> s <= r) -> e * s <= resolved t e s.
Proof.
  intros He Hs. destruct t as [tv|]; simpl.
  - apply ratio_bound; [assumption|]. apply Hs. now left.
  - apply Qle_refl.
Qed.

Lemma resolved_tight (t : option Q) (e s : Q) :
  0 < e -> In s (ratio t e) -> e * s == resolved t e s.
Proof.
  intros He Hs. apply in_ratio in Hs. destruct Hs as (tv & -> & ->). simpl.
  apply ratio_tight; [assumption | reflexivity].
Qed.

Lemma ratio_in_pos (r : Q) (t : option Q) (e : Q) :
  0 < e -> positive_if_set t -> In r (ratio t e) -> 0 < r.
Proof.
  intros He Ht Hr. apply in_ratio in Hr. destruct Hr as (tv & -> & ->).
  now apply ratio_pos.
Qed.

(** ** [center_and_align] through its stages *)

Lemma center_and_align_stages (obj : Object) (target_dims : dict (option Q))
    (w d h : Q) :
  extents obj = Ok (sizes w d h) -> ~ w == 0 -> ~ d == 0 -> ~ h == 0 ->
  center_and_align obj (Some target_dims)
  = ('(final_target_dims, s) <- scale_solver (sizes w d h) target_dims ;;
     Ok (set_location (scaled_object obj s)
           (Vopp (bbox_center (get_bounding_box (scaled_object obj s)))),
         final_target_dims, sizes (w * s) (d * s) (h * s))).
Proof.
  intros HE Hw Hd Hh. unfold center_and_align.
  change (compute_model_sizes _) with (extents obj). rewrite HE.
  cbn [bind validate_sizes sizes].
  rewrite (Qeq_bool_nonzero Hw), (Qeq_bool_nonzero Hd), (Qeq_bool_nonzero Hh).
  destruct target_dims as [|kv r]; reflexivity.
Qed.

(** ** Centering *)

Lemma fold_Vadd_shift (k t1 t2 : Vector) (l : list Vector) :
  forall (acc1 acc2 : Vector) (n : Q),
    Veq acc1 (Vadd acc2 (Vmul (mkVector n n n) (Vadd t1 (Vopp t2)))) ->
    Veq (fold_left Vadd (map (fun v => Vadd t1 (Vmul k v)) l) acc1)
        (Vadd (fold_left Vadd (map (fun v => Vadd t2 (Vmul k v)) l) acc2)
           (Vmul (let m := n + inject_Z (Z.of_nat (List.length l)) in
                  mkVector m m m)
              (Vadd t1 (Vopp t2)))).
Proof.
  induction l as [|v l IH]; intros acc1 acc2 n (Hx & Hy & Hz).
  - unfold Veq in *. cbn in *. rewrite Hx, Hy, Hz. repeat split; ring.
  - cbn [map fold_left List.length].
    specialize (IH (Vadd acc1 (Vadd t1 (Vmul k v)))
                   (Vadd acc2 (Vadd t2 (Vmul k v))) (n + 1)).
    destruct IH as (Ix & Iy & Iz).
    + unfold Veq. cbn in *. rewrite Hx, Hy, Hz. repeat split; ring.
    + rewrite Nat2Z.inj_succ, <- Z.add_1_r, inject_Z_plus.
      unfold Veq in *. cbn in *. rewrite Ix, Iy, Iz.
      repeat split; ring.
Qed.

Lemma bbox_center_mean (l : list Vector) :
  List.length l = 8%nat -> bbox_center l = mean l.
Proof. intros H. unfold mean. rewrite H. reflexivity. Qed.

Lemma recentred_mean_zero (o : Object) :
  location o = Vzero -> List.length (bound_box o) = 8%nat ->
  Veq (mean (get_bounding_box
               (set_location o (Vopp (bbox_center (get_bounding_box o))))))
      Vzero.
Proof.
  intros Hloc Hlen.
  set (c := bbox_center (get_bounding_box o)).
  assert (Hsum := @fold_Vadd_shift (scale o) (Vopp c) Vzero (bound_box o)
                    Vzero Vzero 0).
  destruct Hsum as (Sx & Sy & Sz).
  { unfold Veq. cbn. repeat split; ring. }
  unfold mean, get_bounding_box, matrix_world, set_location.
  cbn [bound_box location scale]. rewrite length_map, Hlen in *.
  unfold Veq. cbn [x y z Vdiv Vzero].
  rewrite Sx, Sy, Sz.
  subst c. unfold bbox_center, get_bounding_box, matrix_world. rewrite Hloc.
  cbn. repeat split; field.
Qed.

Lemma scaled_object_location (obj : Object) (s : Q) :
  location (scaled_object obj s) = Vzero.
Proof. reflexivity. Qed.

Lemma scaled_object_length (obj : Object) (s : Q) :
  List.length (bound_box (scaled_object obj s)) = List.length (bound_box obj).
Proof. unfold scaled_object. cbn. now rewrite !length_map. Qed.

(** ** The solver on a valid envelope *)

Lemma set_ratios_nil (w d h : Q) (bw bh bd : option Q) :
  set_ratios w d h bw bh bd = [] <-> bw = None /\ bh = None /\ bd = None.
Proof.
  destruct bw, bh, bd; cbn; split; try discriminate; auto;
    intros (A & B & C); discriminate.
Qed.

Lemma solver_on_envelope (w d h : Q) (bw bh bd : option Q) :
  0 < w -> 0 < d -> 0 < h ->
  ~ (bw = None /\ bh = None /\ bd = None) ->
  exists s,
    is_min s (set_ratios w d h bw bh bd) /\
    scale_solver (sizes w d h) (target_dims_of bw bh bd)
    = Ok ([("width", Some (resolved bw w s)); ("depth", Some (resolved bd d s));
           ("height", Some (resolved bh h s))], s).
Proof.
  intros Hw Hd Hh Hset.
  assert (Hne : set_ratios w d h bw bh bd <> []).
  { intros E. apply Hset. now apply set_ratios_nil in E. }
  destruct (@scale_solver_set w d h (pos_nonzero Hw) (pos_nonzero Hd)
              (pos_nonzero Hh) bw bh bd Hne) as (s & Hmin & Hsolve).
  exists s. split; [now apply py_min_is_min | exact Hsolve].
Qed.

Lemma min_ratio_pos (w d h s : Q) (bw bh bd : option Q) :
  0 < w -> 0 < d -> 0 < h ->
  positive_if_set bw -> positive_if_set bh -> positive_if_set bd ->
  In s (set_ratios w d h bw bh bd) -> 0 < s.
Proof.
  intros Hw Hd Hh Pw Ph Pd Hin. apply in_set_ratios in Hin.
  destruct Hin as [H|[H|H]].
  - eapply ratio_in_pos; [exact Hw | exact Pw | exact H].
  - eapply ratio_in_pos; [exact Hh | exact Ph | exact H].
  - eapply ratio_in_pos; [exact Hd | exact Pd | exact H].
Qed.

Lemma min_below (w d h s : Q) (bw bh bd : option Q) :
  is_min s (set_ratios w d h bw bh bd) ->
  (forall r, In r (ratio bw w) -> s <= r) /\
  (forall r, In r (ratio bh h) -> s <= r) /\
  (forall r, In r (ratio bd d) -> s <= r).
Proof.
  intros [_ Hle]. repeat split; intros r Hr; apply Hle, in_set_ratios; auto.
Qed.

Lemma ratio_ge_one (f e : Q) : 0 < e -> e <= f -> 1 <= f / e.
Proof.
  intros He Hf. apply Qle_shift_div_l; [assumption|]. now rewrite Qmult_1_l.
Qed.

Lemma ratio_eq_one (f e : Q) : 0 < e -> e == f -> f / e == 1.
Proof.
  intros He Hf. rewrite <- Hf. apply Qmult_inv_r, pos_nonzero, He.
Qed.

(** * The claims *)

(** C1.  For strictly positive extents and a target envelope whose set axes
    are strictly positive, [center_and_align] scales by the minimum over the
    set axes of [T[a] / E[a]]; the final dimension of a set axis is its
    target and that of an unset axis is the extent times the scale factor.
    With no axis set the scale factor is 1 and the final dimensions are the
    extents. *)
Theorem center_and_align_scale_to_fit (obj : Object) (w d h : Q)
    (bw bh bd : option Q) :
  extents obj = Ok (sizes w d h) ->
  0 < w -> 0 < d -> 0 < h ->
  positive_if_set bw -> positive_if_set bh -> positive_if_set bd ->
  exists obj' final s,
    center_and_align obj (Some (target_dims_of bw bh bd))
    = Ok (obj', final, sizes (w * s) (d * s) (h * s)) /\
    scale_solver (sizes w d h) (target_dims_of bw bh bd) = Ok (final, s) /\
    (bw = None /\ bh = None /\ bd = None ->
     s = 1 /\
     final = [("width", Some w); ("depth", Some d); ("height", Some h)]) /\
    (~ (bw = None /\ bh = None /\ bd = None) ->
     is_min s (set_ratios w d h bw bh bd) /\
     final = [("width", Some (resolved bw w s));
              ("depth", Some (resolved bd d s));
              ("height", Some (resolved bh h s))]).
Proof.
  intros HE Hw Hd Hh _ _ _.
  assert (Hstages := @center_and_align_stages obj (target_dims_of bw bh bd)
                       w d h HE (pos_nonzero Hw) (pos_nonzero Hd)
                       (pos_nonzero Hh)).
  destruct (set_ratios w d h bw bh bd) as [|r rs] eqn:E.
  - apply set_ratios_nil in E. destruct E as (-> & -> & ->).
    rewrite scale_solver_unset in Hstages. cbn [bind] in Hstages.
    eexists _, _, 1. split; [exact Hstages|].
    split; [apply scale_solver_unset|].
    split; [auto | intros H; exfalso; apply H; auto].
  - assert (Hset : ~ (bw = None /\ bh = None /\ bd = None)).
    { intros H. apply (set_ratios_nil w d h) in H. congruence. }
    destruct (@solver_on_envelope w d h bw bh bd Hw Hd Hh Hset) as (s & Hmin & Hs).
    rewrite Hs in Hstages. cbn [bind] in Hstages.
    eexists _, _, s. split; [exact Hstages|].
    split; [exact Hs|].
    split; [intros H; contradiction|].
    intros _. rewrite E in Hmin. split; [exact Hmin | reflexivity].
Qed.

Lemma center_and_align_scale_to_fit_witness :
  exists obj' final s,
    center_and_align sample_obj (Some (target_dims_of (Some 100) None None))
    = Ok (obj', final, sizes (50 * s) (30 * s) (80 * s)) /\
    scale_solver (sizes 50 30 80) (target_dims_of (Some 100) None None)
    = Ok (final, s) /\
    (Some 100 = None /\ @None Q = None /\ @None Q = None ->
     s = 1 /\
     final = [("width", Some 50); ("depth", Some 30); ("height", Some 80)]) /\
    (~ (Some 100 = None /\ @None Q = None /\ @None Q = None) ->
     is_min s (set_ratios 50 30 80 (Some 100) None None) /\
     final = [("width", Some (resolved (Some 100) 50 s));
              ("depth", Some (resolved None 30 s));
              ("height", Some (resolved None 80 s))]).
Proof.
  apply (@center_and_align_scale_to_fit sample_obj 50 30 80 (Some 100) None None);
    try reflexivity; exact I.
Defined.



(** ** Extents of a scaled object *)

Lemma Qmult_le_mono_nonneg (s a b : Q) : 0 <= s -> a <= b -> s * a <= s * b.
Proof.
  intros Hs Hab. rewrite !(Qmult_comm s). now apply Qmult_le_compat_r.
Qed.

Lemma Qmax_scale (s a b a' b' : Q) :
  0 <= s -> a' == s * a -> b' == s * b -> Qmax a' b' == s * Qmax a b.
Proof.
  intros Hs Ha Hb.
  destruct (Q.max_spec a b) as [[H E]|[H E]];
  destruct (Q.max_spec a' b') as [[H' E']|[H' E']]; rewrite E, E'; try assumption.
  - assert (s * a <= s * b) by (apply Qmult_le_mono_nonneg; lra). lra.
  - assert (s * b <= s * a) by (apply Qmult_le_mono_nonneg; lra). lra.
Qed.

Lemma Qmin_scale (s a b a' b' : Q) :
  0 <= s -> a' == s * a -> b' == s * b -> Qmin a' b' == s * Qmin a b.
Proof.
  intros Hs Ha Hb.
  destruct (Q.min_spec a b) as [[H E]|[H E]];
  destruct (Q.min_spec a' b') as [[H' E']|[H' E']]; rewrite E, E'; try assumption.
  - assert (s * a <= s * b) by (apply Qmult_le_mono_nonneg; lra). lra.
  - assert (s * b <= s * a) by (apply Qmult_le_mono_nonneg; lra). lra.
Qed.

Section Scaled.
Variable s : Q.
Hypothesis Hs : 0 <= s.
Variables f g : Vector -> Q.
Hypothesis Hfg : forall v, g v == s * f v.

Lemma fold_max_scale (l : list Vector) :
  forall a a', a' == s * a ->
    fold_left Qmax (map g l) a' == s * fold_left Qmax (map f l) a.
Proof.
  induction l as [|v l IH]; intros a a' Ha; cbn [map fold_left].
  - exact Ha.
  - apply IH. now apply Qmax_scale.
Qed.

Lemma fold_min_scale (l : list Vector) :
  forall a a', a' == s * a ->
    fold_left Qmin (map g l) a' == s * fold_left Qmin (map f l) a.
Proof.
  induction l as [|v l IH]; intros a a' Ha; cbn [map fold_left].
  - exact Ha.
  - apply IH. now apply Qmin_scale.
Qed.

Lemma extent_scale (l : list Vector) (hi lo : Q) :
  py_max (map f l) = Ok hi -> py_min (map f l) = Ok lo ->
  exists hi' lo',
    py_max (map g l) = Ok hi' /\ py_min (map g l) = Ok lo' /\
    hi' - lo' == (hi - lo) * s.
Proof.
  destruct l as [|v l]; cbn [map py_max py_min]; [discriminate|].
  intros [= <-] [= <-]. eexists _, _. split; [reflexivity|].
  split; [reflexivity|].
  rewrite (@fold_max_scale l (f v) (g v) (Hfg v)).
  rewrite (@fold_min_scale l (f v) (g v) (Hfg v)). ring.
Qed.
End Scaled.

Lemma first_bbox (obj : Object) :
  get_bounding_box (set_location (transform_apply false obj) Vzero)
  = map (first_bbox_point obj) (bound_box obj).
Proof.
  unfold get_bounding_box, set_location, transform_apply. cbn.
  rewrite map_map. reflexivity.
Qed.

Lemma second_bbox (obj : Object) (s : Q) (loc : Vector) :
  get_bounding_box
    (set_location
       (transform_apply false (set_location (scaled_object obj s) loc)) Vzero)
  = map (second_bbox_point obj s) (bound_box obj).
Proof.
  unfold get_bounding_box, set_location, scaled_object, transform_apply. cbn.
  rewrite !map_map. reflexivity.
Qed.

Lemma extents_after_scale (obj : Object) (w d h s : Q) (loc : Vector) :
  0 <= s ->
  extents obj = Ok (sizes w d h) ->
  exists w' d' h',
    extents (set_location (scaled_object obj s) loc) = Ok (sizes w' d' h') /\
    w' == w * s /\ d' == d * s /\ h' == h * s.
Proof.
  intros Hs. unfold extents. rewrite first_bbox, second_bbox.
  unfold compute_model_sizes. rewrite !map_map.
  set (bb := bound_box obj).
  destruct (py_max (map (fun v => x (first_bbox_point obj v)) bb))
    as [hx|] eqn:Mx; cbn [bind]; [|discriminate].
  destruct (py_min (map (fun v => x (first_bbox_point obj v)) bb))
    as [lx|] eqn:mx; cbn [bind]; [|discriminate].
  destruct (py_max (map (fun v => y (first_bbox_point obj v)) bb))
    as [hy|] eqn:My; cbn [bind]; [|discriminate].
  destruct (py_min (map (fun v => y (first_bbox_point obj v)) bb))
    as [ly|] eqn:my; cbn [bind]; [|discriminate].
  destruct (py_max (map (fun v => z (first_bbox_point obj v)) bb))
    as [hz|] eqn:Mz; cbn [bind]; [|discriminate].
  destruct (py_min (map (fun v => z (first_bbox_point obj v)) bb))
    as [lz|] eqn:mz; cbn [bind]; [|discriminate].
  intros [= <- <- <-].
  assert (Fx : forall v, x (second_bbox_point obj s v)
                         == s * x (first_bbox_point obj v))
    by (intros v; cbn; ring).
  assert (Fy : forall v, y (second_bbox_point obj s v)
                         == s * y (first_bbox_point obj v))
    by (intros v; cbn; ring).
  assert (Fz : forall v, z (second_bbox_point obj s v)
                         == s * z (first_bbox_point obj v))
    by (intros v; cbn; ring).
  destruct (@extent_scale s Hs _ _ Fx bb hx lx Mx mx)
    as (hx' & lx' & -> & -> & Ex).
  destruct (@extent_scale s Hs _ _ Fy bb hy ly My my)
    as (hy' & ly' & -> & -> & Ey).
  destruct (@extent_scale s Hs _ _ Fz bb hz lz Mz mz)
    as (hz' & lz' & -> & -> & Ez).
  cbn [bind]. eexists _, _, _. split; [reflexivity|]. auto.
Qed.

(** ** The fixed point *)

Lemma solver_again (w d h : Q) (bw bh bd : option Q) :
  0 < w -> 0 < d -> 0 < h ->
  positive_if_set bw -> positive_if_set bh -> positive_if_set bd ->
  ~ (bw = None /\ bh = None /\ bd = None) ->
  exists final s,
    0 < s /\
    scale_solver (sizes w d h) (target_dims_of bw bh bd) = Ok (final, s) /\
    forall w' d' h',
      w' == w * s -> d' == d * s -> h' == h * s ->
      ~ w' == 0 /\ ~ d' == 0 /\ ~ h' == 0 /\
      exists s',
        scale_solver (sizes w' d' h')
          (target_dims_of (dict_get final "width" None)
             (dict_get final "height" None) (dict_get final "depth" None))
        = Ok (final, s') /\
        s' == 1.
Proof.
  intros Hw Hd Hh Pw Ph Pd Hset.
  destruct (@solver_on_envelope w d h bw bh bd Hw Hd Hh Hset)
    as (s & Hmin & Hs).
  assert (Hpos : 0 < s).
  { destruct Hmin as [Hin _].
    eapply min_ratio_pos; [exact Hw | exact Hd | exact Hh | exact Pw
                          | exact Ph | exact Pd | exact Hin]. }
  eexists _, s. split; [exact Hpos|]. split; [exact Hs|].
  intros w' d' h' Ew Ed Eh.
  cbn [dict_get dict_lookup String.eqb Ascii.eqb Bool.eqb].
  assert (Hw' : 0 < w') by (rewrite Ew; now apply Qmult_lt_0_compat).
  assert (Hd' : 0 < d') by (rewrite Ed; now apply Qmult_lt_0_compat).
  assert (Hh' : 0 < h') by (rewrite Eh; now apply Qmult_lt_0_compat).
  split; [now apply pos_nonzero|]. split; [now apply pos_nonzero|].
  split; [now apply pos_nonzero|].
  set (fw := resolved bw w s) in *.
  set (fd := resolved bd d s) in *.
  set (fh := resolved bh h s) in *.
  destruct (@solver_on_envelope w' d' h' (Some fw) (Some fh) (Some fd)
              Hw' Hd' Hh') as (s' & Hmin' & Hs').
  { intros (H & _). discriminate H. }
  exists s'. split; [exact Hs'|].
  destruct (min_below _ _ _ _ _ _ Hmin) as (Lw & Lh & Ld).
  assert (Gw : w' <= fw) by (rewrite Ew; now apply resolved_ge).
  assert (Gd : d' <= fd) by (rewrite Ed; now apply resolved_ge).
  assert (Gh : h' <= fh) by (rewrite Eh; now apply resolved_ge).
  destruct Hmin' as [Hin' Hle']. apply Qle_antisym.
  - destruct Hmin as [Hin _]. apply in_set_ratios in Hin.
    destruct Hin as [H|[H|H]].
    + rewrite <- (@ratio_eq_one fw w' Hw').
      * apply Hle'. cbn. auto.
      * rewrite Ew. now apply resolved_tight.
    + rewrite <- (@ratio_eq_one fh h' Hh').
      * apply Hle'. cbn. auto.
      * rewrite Eh. now apply resolved_tight.
    + rewrite <- (@ratio_eq_one fd d' Hd').
      * apply Hle'. cbn. auto.
      * rewrite Ed. now apply resolved_tight.
  - cbn in Hin'. destruct Hin' as [<-|[<-|[<-|[]]]];
      now apply ratio_ge_one.
Qed.

(** C6, amended.  In exact arithmetic, a fixed point: after a run on
    strictly positive extents and a
    non-empty positive envelope, the scale solver run again on the scaled
    extents, with the first run's final dimensions as the target on all
    three axes, yields a scale factor equal to 1 and the same final
    dimensions; so does [center_and_align] called again on the object it
    returned. *)
Theorem scale_solver_fixed_point (obj : Object) (w d h : Q)
    (bw bh bd : option Q) :
  extents obj = Ok (sizes w d h) ->
  0 < w -> 0 < d -> 0 < h ->
  positive_if_set bw -> positive_if_set bh -> positive_if_set bd ->
  ~ (bw = None /\ bh = None /\ bd = None) ->
  exists obj1 final s,
    center_and_align obj (Some (target_dims_of bw bh bd))
    = Ok (obj1, final, sizes (w * s) (d * s) (h * s)) /\
    scale_solver (sizes w d h) (target_dims_of bw bh bd) = Ok (final, s) /\
    let again :=
      target_dims_of (dict_get final "width" None)
        (dict_get final "height" None) (dict_get final "depth" None) in
    (forall w' d' h',
       w' == w * s -> d' == d * s -> h' == h * s ->
       exists s',
         scale_solver (sizes w' d' h') again = Ok (final, s') /\ s' == 1) /\
    (exists obj2 w' d' h' s',
       extents obj1 = Ok (sizes w' d' h') /\
       w' == w * s /\ d' == d * s /\ h' == h * s /\
       center_and_align obj1 (Some again)
       = Ok (obj2, final, sizes (w' * s') (d' * s') (h' * s')) /\
       s' == 1).
Proof.
  intros HE Hw Hd Hh Pw Ph Pd Hset.
  assert (Hstages := @center_and_align_stages obj (target_dims_of bw bh bd)
                       w d h HE (pos_nonzero Hw) (pos_nonzero Hd)
                       (pos_nonzero Hh)).
  destruct (@solver_again w d h bw bh bd Hw Hd Hh Pw Ph Pd Hset)
    as (final & s & Hpos & Hs & Hagain).
  rewrite Hs in Hstages. cbn [bind] in Hstages.
  eexists _, final, s. split; [exact Hstages|]. split; [exact Hs|].
  cbv zeta. split.
  - intros w' d' h' Ew Ed Eh.
    destruct (Hagain w' d' h' Ew Ed Eh) as (_ & _ & _ & H). exact H.
  - destruct (@extents_after_scale obj w d h s
                (Vopp (bbox_center (get_bounding_box (scaled_object obj s))))
                (Qlt_le_weak _ _ Hpos) HE)
      as (w' & d' & h' & HE' & Ew & Ed & Eh).
    destruct (Hagain w' d' h' Ew Ed Eh) as (Nw & Nd & Nh & s' & Hs' & E1).
    assert (Hstages' := @center_and_align_stages _
                          (target_dims_of (dict_get final "width" None)
                             (dict_get final "height" None)
                             (dict_get final "depth" None))
                          w' d' h' HE' Nw Nd Nh).
    rewrite Hs' in Hstages'. cbn [bind] in Hstages'.
    eexists _, w', d', h', s'.
    split; [exact HE'|]. split; [exact Ew|]. split; [exact Ed|].
    split; [exact Eh|]. split; [exact Hstages' | exact E1].
Qed.

Lemma scale_solver_fixed_point_witness :
  exists obj1 final s,
    center_and_align sample_obj
      (Some (target_dims_of (Some 100) None (Some 90)))
    = Ok (obj1, final, sizes (50 * s) (30 * s) (80 * s)) /\
    scale_solver (sizes 50 30 80) (target_dims_of (Some 100) None (Some 90))
    = Ok (final, s) /\
    let again :=
      target_dims_of (dict_get final "width" None)
        (dict_get final "height" None) (dict_get final "depth" None) in
    (forall w' d' h',
       w' == 50 * s -> d' == 30 * s -> h' == 80 * s ->
       exists s',
         scale_solver (sizes w' d' h') again = Ok (final, s') /\ s' == 1) /\
    (exists obj2 w' d' h' s',
       extents obj1 = Ok (sizes w' d' h') /\
       w' == 50 * s /\ d' == 30 * s /\ h' == 80 * s /\
       center_and_align obj1 (Some again)
       = Ok (obj2, final, sizes (w' * s') (d' * s') (h' * s')) /\
       s' == 1).
Proof.
  apply (@scale_solver_fixed_point sample_obj 50 30 80 (Some 100) None
           (Some 90)); try reflexivity; try exact I.
  intros (H & _). discriminate H.
Defined.

(** ** Centering, for every target dictionary *)

Lemma center_and_align_inv (obj : Object) (target_dims : option (dict (option Q)))
    (obj' : Object) (final : dict (option Q)) (scaled : dict Q) :
  center_and_align obj target_dims = Ok (obj', final, scaled) ->
  exists s,
    obj' = set_location (scaled_object obj s)
             (Vopp (bbox_center (get_bounding_box (scaled_object obj s)))).
Proof.
  unfold center_and_align. intros H.
  destruct (compute_model_sizes _) as [ms|e]; cbn [bind] in H; [|discriminate].
  destruct (validate_sizes ms) as [[]|e]; cbn [bind] in H; [|discriminate].
  destruct (scale_solver ms _) as [[f s]|e]; cbn [bind] in H; [|discriminate].
  injection H as <- _ _. exists s. reflexivity.
Qed.

Lemma center_and_align_centred (obj : Object)
    (target_dims : option (dict (option Q)))
    (obj' : Object) (final : dict (option Q)) (scaled : dict Q) :
  List.length (bound_box obj) = 8%nat ->
  center_and_align obj target_dims = Ok (obj', final, scaled) ->
  Veq (mean (get_bounding_box obj')) Vzero.
Proof.
  intros Hlen H. apply center_and_align_inv in H. destruct H as (s & ->).
  apply recentred_mean_zero.
  - apply scaled_object_location.
  - now rewrite scaled_object_length.
Qed.

Lemma solver_total (w d h : Q) (bw bh bd : option Q) :
  ~ w == 0 -> ~ d == 0 -> ~ h == 0 ->
  exists final s,
    scale_solver (sizes w d h) (target_dims_of bw bh bd) = Ok (final, s).
Proof.
  intros Hw Hd Hh.
  destruct (set_ratios w d h bw bh bd) as [|r rs] eqn:E.
  - apply set_ratios_nil in E. destruct E as (-> & -> & ->).
    eexists _, _. apply scale_solver_unset.
  - destruct (@scale_solver_set w d h Hw Hd Hh bw bh bd) as (s & _ & Hs).
    + congruence.
    + eexists _, _. exact Hs.
Qed.

(** C5.  For a mesh with strictly positive extents, the translation set by
    [center_and_align] is the negated arithmetic mean of the 8 corners of the
    bounding box read after the scale was applied, and the bounding box of
    the translated object has its mean at the zero vector. *)
Theorem center_and_align_centres (obj : Object) (w d h : Q)
    (bw bh bd : option Q) :
  List.length (bound_box obj) = 8%nat ->
  extents obj = Ok (sizes w d h) ->
  0 < w -> 0 < d -> 0 < h ->
  exists obj' final scaled s,
    center_and_align obj (Some (target_dims_of bw bh bd))
    = Ok (obj', final, scaled) /\
    scale_solver (sizes w d h) (target_dims_of bw bh bd) = Ok (final, s) /\
    bound_box obj' = bound_box (scaled_object obj s) /\
    location obj' = Vopp (mean (get_bounding_box (scaled_object obj s))) /\
    Veq (mean (get_bounding_box obj')) Vzero.
Proof.
  intros Hlen HE Hw Hd Hh.
  assert (Hstages := @center_and_align_stages obj (target_dims_of bw bh bd)
                       w d h HE (pos_nonzero Hw) (pos_nonzero Hd)
                       (pos_nonzero Hh)).
  destruct (@solver_total w d h bw bh bd (pos_nonzero Hw) (pos_nonzero Hd)
              (pos_nonzero Hh)) as (final & s & Hs).
  rewrite Hs in Hstages. cbn [bind] in Hstages.
  eexists _, final, _, s. split; [exact Hstages|].
  split; [exact Hs|]. split; [reflexivity|]. split.
  - cbn [location set_location]. f_equal. apply bbox_center_mean.
    unfold get_bounding_box. now rewrite length_map, scaled_object_length.
  - eapply center_and_align_centred; [exact Hlen | exact Hstages].
Qed.

Lemma center_and_align_centres_witness :
  exists obj' final scaled s,
    center_and_align sample_obj (Some (target_dims_of (Some 100) None None))
    = Ok (obj', final, scaled) /\
    scale_solver (sizes 50 30 80) (target_dims_of (Some 100) None None)
    = Ok (final, s) /\
    bound_box obj' = bound_box (scaled_object sample_obj s) /\
    location obj'
    = Vopp (mean (get_bounding_box (scaled_object sample_obj s))) /\
    Veq (mean (get_bounding_box obj')) Vzero.
Proof.
  apply (@center_and_align_centres sample_obj 50 30 80 (Some 100) None None);
    reflexivity.
Defined.

(** ** Degenerate meshes and division *)

Lemma validate_sizes_zero (ms : dict Q) (a : string) (e : Q) :
  In (a, e) ms -> e == 0 ->
  exists dim size,
    In (dim, size) ms /\ size == 0 /\
    validate_sizes ms = Err (zero_model_error dim).
Proof.
  induction ms as [|[k v] ms IH]; intros Hin He; [destruct Hin|].
  cbn [validate_sizes]. destruct (Qeq_bool v 0) eqn:Ev.
  - exists k, v. repeat split; [now left | now apply Qeq_bool_eq].
  - destruct Hin as [[= -> ->]|Hin].
    + apply Qeq_eq_bool in He. congruence.
    + destruct (IH Hin He) as (dim & size & Hd & Hz & Hv).
      exists dim, size. repeat split; [now right | assumption..].
Qed.

Lemma validate_sizes_ok (ms : dict Q) :
  validate_sizes ms = Ok tt -> forall a e, In (a, e) ms -> ~ e == 0.
Proof.
  induction ms as [|[k v] ms IH]; intros H a e Hin; [destruct Hin|].
  cbn [validate_sizes] in H. destruct (Qeq_bool v 0) eqn:Ev; [discriminate|].
  destruct Hin as [[= -> ->]|Hin].
  - intros He. apply Qeq_eq_bool in He. congruence.
  - now apply (IH H a).
Qed.

Lemma dict_getitem_in {V : Type} (d : dict V) (k : string) (v : V) :
  dict_getitem d k = Ok v -> In (k, v) d.
Proof.
  unfold dict_getitem. induction d as [|[k' v'] d IH]; cbn; [discriminate|].
  destruct (String.eqb k' k) eqn:E.
  - apply String.eqb_eq in E. intros [= ->]. subst. now left.
  - intros H. right. now apply IH.
Qed.

Lemma bind_no_zero_division {A B : Type} (m : result A) (k : A -> result B) :
  no_zero_division m ->
  (forall a, m = Ok a -> no_zero_division (k a)) ->
  no_zero_division (bind m k).
Proof.
  intros Hm Hk. destruct m as [a|e]; cbn.
  - now apply Hk.
  - intros [= ->]. now apply Hm.
Qed.

Lemma dict_getitem_no_zero_division {V : Type} (d : dict V) (k : string) :
  no_zero_division (dict_getitem d k).
Proof. unfold dict_getitem. destruct (dict_lookup d k); discriminate. Qed.

Lemma py_min_no_zero_division (l : list Q) : no_zero_division (py_min l).
Proof. destruct l; discriminate. Qed.

Lemma py_max_no_zero_division (l : list Q) : no_zero_division (py_max l).
Proof. destruct l; discriminate. Qed.

Lemma validate_sizes_no_zero_division (ms : dict Q) :
  no_zero_division (validate_sizes ms).
Proof.
  induction ms as [|[k v] ms IH]; cbn; [discriminate|].
  destruct (Qeq_bool v 0); [discriminate | exact IH].
Qed.

Lemma compute_model_sizes_no_zero_division (bbox : list Vector) :
  no_zero_division (compute_model_sizes bbox).
Proof.
  unfold compute_model_sizes.
  repeat (apply bind_no_zero_division;
          [first [apply py_max_no_zero_division | apply py_min_no_zero_division]
          | intros ? _]).
  discriminate.
Qed.

Section Validated.

Variable model_sizes : dict Q.
Hypothesis Hvalid : validate_sizes model_sizes = Ok tt.

Lemma scales_of_no_zero_division (target_dims : dict (option Q))
    (keys : list string) :
  no_zero_division (scales_of model_sizes target_dims keys).
Proof.
  induction keys as [|dim r IH]; cbn [scales_of]; [discriminate|].
  apply bind_no_zero_division; [apply dict_getitem_no_zero_division|].
  intros [t|] _; [|exact IH].
  apply bind_no_zero_division; [apply dict_getitem_no_zero_division|].
  intros e He. apply dict_getitem_in in He.
  rewrite py_div_nonzero by (eapply validate_sizes_ok; eauto). cbn [bind].
  apply bind_no_zero_division; [exact IH | discriminate].
Qed.

Lemma resolve_dims_no_zero_division (target_dims : dict (option Q)) (s : Q)
    (dims : list string) :
  forall final, no_zero_division (resolve_dims model_sizes target_dims s dims final).
Proof.
  induction dims as [|dim r IH]; intros final; cbn [resolve_dims];
    [discriminate|].
  apply bind_no_zero_division; [apply dict_getitem_no_zero_division|].
  intros e _. apply IH.
Qed.

Lemma scale_solver_no_zero_division (target_dims : dict (option Q)) :
  no_zero_division (scale_solver model_sizes target_dims).
Proof.
  unfold scale_solver. destruct (Nat.eqb _ 0); [discriminate|].
  apply bind_no_zero_division; [apply scales_of_no_zero_division|].
  intros scales _.
  apply bind_no_zero_division; [apply py_min_no_zero_division|].
  intros s _.
  apply bind_no_zero_division; [apply resolve_dims_no_zero_division|].
  discriminate.
Qed.

End Validated.

Lemma center_and_align_no_zero_division (obj : Object)
    (target_dims : option (dict (option Q))) :
  no_zero_division (center_and_align obj target_dims).
Proof.
  unfold center_and_align.
  apply bind_no_zero_division; [apply compute_model_sizes_no_zero_division|].
  intros ms _.
  apply bind_no_zero_division; [apply validate_sizes_no_zero_division|].
  intros [] Hvalid.
  apply bind_no_zero_division; [now apply scale_solver_no_zero_division|].
  intros [final s] _. discriminate.
Qed.

Lemma extents_eight_corners (obj : Object) :
  List.length (bound_box obj) = 8%nat -> exists ms, extents obj = Ok ms.
Proof.
  intros Hlen. unfold extents, compute_model_sizes.
  destruct (get_bounding_box _) as [|v l] eqn:E.
  - apply (f_equal (@List.length Vector)) in E.
    unfold get_bounding_box in E. cbn in E. rewrite !length_map, Hlen in E.
    discriminate.
  - cbn. eauto.
Qed.

(** C4.  When the extent of the bounding box is zero on some axis,
    [center_and_align] raises the zero-model [ValueError] whatever the target
    dictionary is, so before any ratio is computed; and no call of
    [center_and_align] ends in a division by zero. *)
Theorem center_and_align_degenerate (obj : Object) (ms : dict Q)
    (a : string) (e : Q) :
  List.length (bound_box obj) = 8%nat ->
  extents obj = Ok ms -> In (a, e) ms -> e == 0 ->
  (forall target_dims,
     exists dim size,
       In (dim, size) ms /\ size == 0 /\
       center_and_align obj target_dims = Err (zero_model_error dim)) /\
  (forall obj0 target_dims,
     no_zero_division (center_and_align obj0 target_dims)).
Proof.
  intros _ HE Hin He. split.
  - intros target_dims.
    destruct (@validate_sizes_zero ms a e Hin He) as (dim & size & Hd & Hz & Hv).
    exists dim, size. repeat split; [assumption..|].
    unfold center_and_align. change (compute_model_sizes _) with (extents obj).
    rewrite HE. cbn [bind]. rewrite Hv. reflexivity.
  - intros obj0 target_dims. apply center_and_align_no_zero_division.
Qed.

Lemma center_and_align_degenerate_witness :
  (forall target_dims,
     exists dim size,
       In (dim, size) (sizes 10 20 0) /\ size == 0 /\
       center_and_align flat_obj target_dims = Err (zero_model_error dim)) /\
  (forall obj0 target_dims,
     no_zero_division (center_and_align obj0 target_dims)).
Proof.
  apply (@center_and_align_degenerate flat_obj (sizes 10 20 0) "height" 0).
  - reflexivity.
  - reflexivity.
  - cbn. auto.
  - reflexivity.
Defined.

(** ** Views *)

(** C7.  For resolved final dimensions, each of the five views of [CONFIG]
    renders with the axis pair of the table (front and back: width by height;
    left and right: depth by height; top: width by depth), and the
    orthographic scale of its camera is the larger of the two. *)
Theorem render_view_axes (cam : Camera) (scene : Scene) (fw fd fh : Q) :
  let dimensions :=
    [("width", Some fw); ("depth", Some fd); ("height", Some fh)] in
  let px (mm : Q) := mm_to_pixels mm 300 in
  dict_keys (views CONFIG) = ["front"; "back"; "left"; "right"; "top"] /\
  render_view "front" cam scene dimensions CONFIG
  = Ok (mkCamera (0, 200, 0)%Z (90, 0, 180)%Z (Qmax fw fh),
        mkScene (px fw) (px fh) 100 "PNG" "output/front.png") /\
  render_view "back" cam scene dimensions CONFIG
  = Ok (mkCamera (0, -200, 0)%Z (90, 0, 0)%Z (Qmax fw fh),
        mkScene (px fw) (px fh) 100 "PNG" "output/back.png") /\
  render_view "left" cam scene dimensions CONFIG
  = Ok (mkCamera (200, 0, 0)%Z (90, 0, 90)%Z (Qmax fd fh),
        mkScene (px fd) (px fh) 100 "PNG" "output/left.png") /\
  render_view "right" cam scene dimensions CONFIG
  = Ok (mkCamera (-200, 0, 0)%Z (90, 0, -90)%Z (Qmax fd fh),
        mkScene (px fd) (px fh) 100 "PNG" "output/right.png") /\
  render_view "top" cam scene dimensions CONFIG
  = Ok (mkCamera (0, 0, 200)%Z (0, 0, 0)%Z (Qmax fw fd),
        mkScene (px fw) (px fd) 100 "PNG" "output/top.png").
Proof. cbv zeta. repeat split. Qed.

(** ** Pixels *)

Lemma py_int_nonneg (q : Q) : 0 <= q -> py_int q = Qfloor q.
Proof.
  destruct q as [n dn]. unfold Qle, py_int, Qfloor. cbn. intros H.
  apply Z.quot_div_nonneg; lia.
Qed.


Lemma py_int_nonpos (q : Q) : q <= 0 -> (py_int q <= 0)%Z.
Proof.
  destruct q as [n dn]. unfold Qle, py_int. cbn. intros H.
  assert (Hn : (0 <= - n)%Z) by lia.
  assert (Hq := Z.quot_pos (- n) (Z.pos dn) Hn (Pos2Z.is_pos dn)).
  rewrite Z.quot_opp_l in Hq by lia. lia.
Qed.

(** The spec's scenario: 160 mm at 300 dpi is 1889.76 pixels, cut to 1889. *)
Example mm_to_pixels_truncates :
  mm_to_pixels 100 300 = 1181%Z /\ mm_to_pixels 160 300 = 1889%Z /\
  (18895 # 10) < 160 * inject_Z 300 / (254 # 10).
Proof. repeat split. Qed.

(** ** A key that is present and mapped to [None] *)

Lemma dict_get_present {V : Type} (d : dict V) (k : string) (v default : V) :
  dict_lookup d k = Some v -> dict_get d k default = v.
Proof. unfold dict_get. now intros ->. Qed.

Lemma scale_solver_final (model_sizes : dict Q) (target_dims : dict (option Q))
    (final : dict (option Q)) (s : Q) :
  provided_dims target_dims <> 0%nat ->
  scale_solver model_sizes target_dims = Ok (final, s) ->
  exists ew ed eh,
    dict_getitem model_sizes "width" = Ok ew /\
    dict_getitem model_sizes "depth" = Ok ed /\
    dict_getitem model_sizes "height" = Ok eh /\
    final = [("width", dict_get target_dims "width" (Some (ew * s)));
             ("depth", dict_get target_dims "depth" (Some (ed * s)));
             ("height", dict_get target_dims "height" (Some (eh * s)))].
Proof.
  intros Hp. unfold scale_solver.
  destruct (Nat.eqb_spec (provided_dims target_dims) 0) as [E|_];
    [contradiction|].
  destruct (scales_of _ _ _) as [scales|e]; cbn [bind]; [|discriminate].
  destruct (py_min scales) as [s0|e]; cbn [bind]; [|discriminate].
  cbn [resolve_dims].
  destruct (dict_getitem model_sizes "width") as [ew|e]; cbn [bind];
    [|discriminate].
  destruct (dict_getitem model_sizes "depth") as [ed|e]; cbn [bind];
    [|discriminate].
  destruct (dict_getitem model_sizes "height") as [eh|e]; cbn [bind];
    [|discriminate].
  intros [= <- <-]. exists ew, ed, eh. repeat split.
Qed.

(** Whenever the solver succeeds with some axis provided, an axis whose key
    is present with the value [None] stays [None] in the final dimensions. *)
Lemma scale_solver_present_none (model_sizes : dict Q)
    (target_dims : dict (option Q)) (final : dict (option Q)) (s : Q)
    (axis : string) :
  provided_dims target_dims <> 0%nat ->
  scale_solver model_sizes target_dims = Ok (final, s) ->
  In axis ["width"; "depth"; "height"] ->
  dict_lookup target_dims axis = Some None ->
  dict_lookup final axis = Some None.
Proof.
  intros Hp Hs Hax Hnone.
  destruct (@scale_solver_final model_sizes target_dims final s Hp Hs) as (ew & ed & eh & _ & _ & _ & ->).
  destruct Hax as [<-|[<-|[<-|[]]]]; cbn;
    erewrite dict_get_present by exact Hnone; reflexivity.
Qed.

(** C9.  There is a target dictionary, with the key of one axis present and
    mapped to [None] and another axis set to a positive value, for which
    [center_and_align] returns final dimensions that map the first axis to
    [None] and not to its scaled extent. *)
Theorem center_and_align_none_axis :
  exists (target_dims : dict (option Q)) obj' final scaled e s,
    dict_wf target_dims /\
    dict_lookup target_dims "width" = Some (Some 100) /\
    dict_lookup target_dims "height" = Some None /\
    center_and_align sample_obj (Some target_dims) = Ok (obj', final, scaled) /\
    extents sample_obj = Ok (sizes 50 30 e) /\
    scaled = sizes (50 * s) (30 * s) (e * s) /\
    dict_lookup final "height" = Some None /\
    dict_lookup final "height" <> Some (Some (e * s)) /\
    add_block_frame final = Err TypeError.
Proof.
  exists [("width", Some 100); ("height", None)].
  eexists _, _, _, 80, (100 / 50).
  split.
  { repeat constructor; cbn; intuition discriminate. }
  repeat split. discriminate.
Qed.

(** ** The scenario of section 8

    Extents 50 x 30 x 80 (width, depth, height) and a target width of 100:
    the final dimensions are 100 x 60 x 160, and at 300 dpi the front view
    is 1181 x 1889 pixels with an orthographic scale of 160, the top view
    has an orthographic scale of 100. *)
Example render_model_scenario :
  exists final rendered,
    render_model sample_obj (Some 100) None None CONFIG blank_cam blank_scene
    = Ok (final, rendered) /\
    map (fun kv => (fst kv, option_map Qred (snd kv))) final
    = [("width", Some 100); ("depth", Some 60); ("height", Some 160)] /\
    map (fun r => (fst (fst r), Qred (ortho_scale (snd (fst r))),
                   resolution_x (snd r), resolution_y (snd r))) rendered
    = [("front", 160, 1181%Z, 1889%Z); ("back", 160, 1181%Z, 1889%Z);
       ("left", 160, 708%Z, 1889%Z); ("right", 160, 708%Z, 1889%Z);
       ("top", 100, 1181%Z, 708%Z)].
Proof. eexists _, _. repeat split. Qed.

(** * Further properties of the script *)

(** ** The command line *)

Lemma list_index_none (x : string) (l : list string) :
  list_index x l = None <-> ~ In x l.
Proof.
  induction l as [|a r IH]; cbn.
  - split; [intros _ [] | reflexivity].
  - destruct (String.eqb_spec a x) as [->|Hne].
    + split; [discriminate | intros H; exfalso; apply H; now left].
    + destruct (list_index x r) as [i|].
      * split; [discriminate|]. intros H.
        assert (Hr : ~ In x r) by (intros Hin; apply H; now right).
        apply IH in Hr. discriminate.
      * split; [|reflexivity]. intros _ [E|Hin]; [contradiction|].
        now apply (proj1 IH).
Qed.

Lemma list_index_split (x : string) (l : list string) (i : nat) :
  list_index x l = Some i ->
  exists pre, l = (pre ++ x :: skipn (i + 1) l)%list /\ ~ In x pre.
Proof.
  revert i. induction l as [|a r IH]; intros i; cbn [list_index];
    [discriminate|].
  destruct (String.eqb_spec a x) as [->|Hne].
  - intros [= <-]. exists []. split; [reflexivity | intros []].
  - destruct (list_index x r) as [j|]; [|discriminate].
    intros [= <-]. destruct (IH j eq_refl) as (pre & Hl & Hpre).
    exists (a :: pre). split.
    + cbn [app Nat.add skipn]. now rewrite <- Hl.
    + intros [E|Hin]; [contradiction | now apply Hpre].
Qed.

(** The script arguments are what follows the first ['--'] of [sys.argv];
    without a ['--'] they are [sys.argv] less its first element. *)
Theorem script_args_after_separator (argv : list string) :
  (In "--" argv ->
   exists blender_args,
     argv = (blender_args ++ "--" :: script_args argv)%list /\
     ~ In "--" blender_args) /\
  (~ In "--" argv -> script_args argv = tl argv).
Proof.
  unfold script_args. split.
  - intros Hin. destruct (list_index "--" argv) as [i|] eqn:E.
    + now apply list_index_split.
    + apply list_index_none in E. contradiction.
  - intros Hn. apply list_index_none in Hn. rewrite Hn.
    destruct argv; reflexivity.
Qed.

Lemma Qle_bool_false (v : Q) : Qle_bool v 0 = false <-> 0 < v.
Proof.
  split.
  - intros H. apply Qnot_le_lt. intros Hle.
    apply Qle_bool_iff in Hle. congruence.
  - intros H. destruct (Qle_bool v 0) eqn:E; [|reflexivity].
    apply Qle_bool_iff in E. exfalso. now apply (Qlt_not_le 0 v).
Qed.

Ltac case_Qle_bool :=
  repeat match goal with
         | |- context [Qle_bool ?v 0] =>
             let E := fresh "E" in
             destruct (Qle_bool v 0) eqn:E;
             [apply Qle_bool_iff in E | apply Qle_bool_false in E]
         end.

Ltac Qsign_contradiction :=
  match goal with
  | H1 : ?v <= 0, H2 : 0 < ?v |- _ => exfalso; exact (Qlt_not_le 0 v H2 H1)
  end.

(** A dimension that is not strictly positive is reported for the first of
    width, height and depth that is given and is at most 0, and only once
    the model file and its suffix have been accepted. *)
Theorem validate_arguments_not_positive (args : Namespace) (dim : string)
    (v : Q) :
  validate_arguments args = inl (NotPositive dim v) <->
  model_exists args = true /\
  In (lower (model_suffix args)) SUPPORTED_EXTENSIONS /\
  ((dim = "width" /\ block_width args = Some v /\ v <= 0) \/
   (dim = "height" /\ positive_if_set (block_width args) /\
    block_height args = Some v /\ v <= 0) \/
   (dim = "depth" /\ positive_if_set (block_width args) /\
    positive_if_set (block_height args) /\
    block_depth args = Some v /\ v <= 0)).
Proof.
  destruct args as [ex sfx bw bh bd]. unfold validate_arguments.
  cbn [model_exists model_suffix block_width block_height block_depth].
  assert (Hin : str_in (lower sfx) SUPPORTED_EXTENSIONS = true <->
                In (lower sfx) SUPPORTED_EXTENSIONS).
  { unfold str_in. rewrite existsb_exists. split.
    - intros (y & Hy & E). apply String.eqb_eq in E. now subst.
    - intros H. exists (lower sfx). split; [assumption|apply String.eqb_refl]. }
  destruct ex; cbn [negb].
  2:{ split; [discriminate | intros (H & _); discriminate]. }
  destruct (str_in (lower sfx) SUPPORTED_EXTENSIONS) eqn:Es; cbn [negb].
  2:{ split; [discriminate|]. intros (_ & H & _). apply Hin in H.
      discriminate. }
  assert (Hs := proj1 Hin eq_refl). clear Hin Es.
  destruct bw as [w|], bh as [h|], bd as [d|];
    cbn [forallb is_not_None negb andb validate_positive positive_if_set];
    case_Qle_bool;
    (split;
     [ intros [= <- <-]; repeat split; auto 10
     | intros (_ & _ & [(-> & [= ->] & Hv)|[(-> & Hp & [= ->] & Hv)
                       |(-> & Hp1 & Hp2 & [= ->] & Hv)]]);
       try reflexivity; try Qsign_contradiction; try discriminate ]).
Qed.

(** ** The Blender version and the import *)

(** With a minor and a patch number that are not negative, the version check
    passes exactly when the major number is at least 4. *)
Theorem check_blender_version_major (major minor patch : Z) :
  (0 <= minor)%Z -> (0 <= patch)%Z ->
  (check_blender_version (major, minor, patch) = None <-> (4 <= major)%Z).
Proof.
  intros Hminor Hpatch. unfold check_blender_version, tuple_lt.
  cbn [MINIMUM_BLENDER_VERSION].
  destruct (Z.eqb_spec major 4) as [->|Hne]; cbn [negb].
  - destruct (Z.eqb_spec minor 0) as [->|Hm]; cbn [negb].
    + destruct (Z.ltb_spec patch 0); [lia|]. split; [lia | reflexivity].
    + destruct (Z.ltb_spec minor 0); [lia|]. split; [lia | reflexivity].
  - destruct (Z.ltb_spec major 4).
    + split; [discriminate | lia].
    + split; [lia | reflexivity].
Qed.

Lemma check_blender_version_major_witness :
  check_blender_version (4, 2, 1)%Z = None <-> (4 <= 4)%Z.
Proof.
  apply (@check_blender_version_major 4 2 1); lia.
Defined.

(** [import_model] returns the first selected object whose type is [MESH],
    and raises its [ValueError] exactly when no selected object is a mesh. *)
Theorem import_model_first_mesh (selected_objects : list SceneObject) :
  (forall g,
     import_model selected_objects = Ok g <->
     exists before o after,
       selected_objects = (before ++ o :: after)%list /\
       obj_type o = "MESH" /\ geometry o = g /\
       forall p, In p before -> obj_type p <> "MESH") /\
  (import_model selected_objects
   = Err (ValueError "No mesh object found in the imported model.") <->
   forall o, In o selected_objects -> obj_type o <> "MESH").
Proof.
  unfold import_model. induction selected_objects as [|a r [IHok IHerr]].
  - cbn. split.
    + intros g. split; [discriminate|].
      intros (before & o & after & E & _). destruct before; discriminate.
    + split; [intros _ o [] | reflexivity].
  - cbn [find]. destruct (String.eqb_spec (obj_type a) "MESH") as [Ea|Ea].
    + split.
      * intros g. split.
        -- intros [= <-]. exists [], a, r. repeat split; [assumption|].
           intros p [].
        -- intros (before & o & after & E & Ho & <- & Hb).
           destruct before as [|b before]; cbn in E.
           ++ now injection E as <- _.
           ++ injection E as <- _. exfalso. apply (Hb a); [now left | exact Ea].
      * split; [discriminate|]. intros H. exfalso.
        apply (H a); [now left | exact Ea].
    + split.
      * intros g. rewrite IHok. split.
        -- intros (before & o & after & -> & Ho & Hg & Hb).
           exists (a :: before), o, after. repeat split; auto.
           intros p [<-|Hp]; auto.
        -- intros (before & o & after & E & Ho & Hg & Hb).
           destruct before as [|b before]; cbn in E.
           ++ injection E as -> _. contradiction.
           ++ injection E as _ ->. exists before, o, after.
              repeat split; auto. intros p Hp. apply Hb. now right.
      * rewrite IHerr. split.
        -- intros H o [<-|Ho]; auto.
        -- intros H o Ho. apply H. now right.
Qed.

(** ** Extents *)

Lemma fold_max_ge_init (l : list Q) (a : Q) : a <= fold_left Qmax l a.
Proof.
  revert a. induction l as [|b l IH]; intros a; cbn [fold_left].
  - apply Qle_refl.
  - apply Qle_trans with (Qmax a b); [apply Q.le_max_l | apply IH].
Qed.

Lemma fold_max_ge (l : list Q) (a r : Q) :
  In r (a :: l) -> r <= fold_left Qmax l a.
Proof.
  revert a. induction l as [|b l IH]; intros a H.
  - destruct H as [H|[]]. rewrite <- H. apply Qle_refl.
  - destruct H as [H|[H|H]].
    + rewrite <- H. apply fold_max_ge_init.
    + rewrite <- H. cbn [fold_left].
      apply Qle_trans with (Qmax a b); [apply Q.le_max_r | apply fold_max_ge_init].
    + cbn [fold_left]. apply IH. now right.
Qed.

Lemma py_spread (l : list Q) (hi lo a b : Q) :
  py_max l = Ok hi -> py_min l = Ok lo -> In a l -> In b l ->
  a - b <= hi - lo.
Proof.
  destruct l as [|c l]; cbn [py_max py_min]; [discriminate|].
  intros [= <-] [= <-] Ha Hb.
  assert (H1 := @fold_max_ge l c a Ha).
  assert (H2 := @fold_min_le l c b Hb).
  lra.
Qed.

(** What [extents] returns has the three axes, and no two corners lie
    farther apart along an axis than the extent on that axis. *)
Lemma extents_shape (obj : Object) (ms : dict Q) :
  extents obj = Ok ms ->
  exists w d h,
    ms = sizes w d h /\
    forall u v, In u (bound_box obj) -> In v (bound_box obj) ->
      x (first_bbox_point obj u) - x (first_bbox_point obj v) <= w /\
      y (first_bbox_point obj u) - y (first_bbox_point obj v) <= d /\
      z (first_bbox_point obj u) - z (first_bbox_point obj v) <= h.
Proof.
  unfold extents. rewrite first_bbox. unfold compute_model_sizes.
  rewrite !map_map. set (bb := bound_box obj).
  destruct (py_max (map (fun v => x (first_bbox_point obj v)) bb))
    as [hx|] eqn:Mx; cbn [bind]; [|discriminate].
  destruct (py_min (map (fun v => x (first_bbox_point obj v)) bb))
    as [lx|] eqn:mx; cbn [bind]; [|discriminate].
  destruct (py_max (map (fun v => y (first_bbox_point obj v)) bb))
    as [hy|] eqn:My; cbn [bind]; [|discriminate].
  destruct (py_min (map (fun v => y (first_bbox_point obj v)) bb))
    as [ly|] eqn:my; cbn [bind]; [|discriminate].
  destruct (py_max (map (fun v => z (first_bbox_point obj v)) bb))
    as [hz|] eqn:Mz; cbn [bind]; [|discriminate].
  destruct (py_min (map (fun v => z (first_bbox_point obj v)) bb))
    as [lz|] eqn:mz; cbn [bind]; [|discriminate].
  intros [= <-]. eexists _, _, _. split; [reflexivity|].
  intros u v Hu Hv.
  repeat split;
    (eapply py_spread; [eassumption | eassumption | |]);
    apply (in_map (fun v => _ (first_bbox_point obj v))); assumption.
Qed.

Lemma extents_nonempty (obj : Object) (ms : dict Q) :
  extents obj = Ok ms -> exists v, In v (bound_box obj).
Proof.
  unfold extents. rewrite first_bbox.
  destruct (bound_box obj) as [|v l]; [discriminate|].
  intros _. exists v. now left.
Qed.

Lemma extents_nonneg (obj : Object) (w d h : Q) :
  extents obj = Ok (sizes w d h) -> 0 <= w /\ 0 <= d /\ 0 <= h.
Proof.
  intros HE. destruct (@extents_nonempty obj _ HE) as (v & Hv).
  destruct (@extents_shape obj _ HE) as (w' & d' & h' & [= -> -> ->] & Hsp).
  destruct (Hsp v v Hv Hv) as (A & B & C). repeat split; lra.
Qed.

Lemma nonneg_nonzero_pos (q : Q) : 0 <= q -> ~ q == 0 -> 0 < q.
Proof.
  intros H0 Hn. apply Qle_lteq in H0. destruct H0 as [H|H]; [exact H|].
  exfalso. apply Hn. now symmetry.
Qed.

(** ** What a successful [center_and_align] tells *)

(** When [center_and_align] returns, whatever the target dictionary was: the
    three extents of the mesh are strictly positive, the second dictionary
    returned holds each extent times one scale factor [s], and the scale of
    the returned object is reset to 1. *)
Theorem center_and_align_success (obj : Object)
    (target_dims : option (dict (option Q))) (obj' : Object)
    (final : dict (option Q)) (scaled : dict Q) :
  center_and_align obj target_dims = Ok (obj', final, scaled) ->
  exists w d h s,
    extents obj = Ok (sizes w d h) /\
    0 < w /\ 0 < d /\ 0 < h /\
    scaled = sizes (w * s) (d * s) (h * s) /\
    scale obj' = Vone.
Proof.
  unfold center_and_align. change (compute_model_sizes _) with (extents obj).
  destruct (extents obj) as [ms|e] eqn:HE; cbn [bind]; [|discriminate].
  destruct (@extents_shape obj ms HE) as (w & d & h & -> & _).
  destruct (@extents_nonneg obj w d h HE) as (Nw & Nd & Nh).
  destruct (validate_sizes (sizes w d h)) as [[]|e] eqn:Hv; cbn [bind];
    [|discriminate].
  assert (Hnz := @validate_sizes_ok (sizes w d h) Hv).
  destruct (scale_solver _ _) as [[f s]|e]; cbn [bind]; [|discriminate].
  intros [= <- <- <-]. exists w, d, h, s.
  split; [reflexivity|].
  split; [apply nonneg_nonzero_pos; [exact Nw|]; apply (Hnz "width"); cbn; auto|].
  split; [apply nonneg_nonzero_pos; [exact Nd|]; apply (Hnz "depth"); cbn; auto|].
  split; [apply nonneg_nonzero_pos; [exact Nh|]; apply (Hnz "height"); cbn; auto|].
  split; reflexivity.
Qed.

Lemma center_and_align_success_witness :
  exists w d h s,
    extents sample_obj = Ok (sizes w d h) /\
    0 < w /\ 0 < d /\ 0 < h /\
    sizes (50 * (100 / 50)) (30 * (100 / 50)) (80 * (100 / 50))
    = sizes (w * s) (d * s) (h * s) /\
    scale
      (set_location (scaled_object sample_obj (100 / 50))
         (Vopp (bbox_center
                  (get_bounding_box (scaled_object sample_obj (100 / 50))))))
    = Vone.
Proof.
  apply (@center_and_align_success sample_obj
           (Some (target_dims_of (Some 100) None None)) _
           [("width", Some 100); ("depth", Some (30 * (100 / 50)));
            ("height", Some (80 * (100 / 50)))] _).
  reflexivity.
Defined.

(** ** Target dictionaries of any shape *)

Lemma provided_dims_zero (target_dims : dict (option Q)) :
  (forall k v, In (k, v) target_dims -> v = None) ->
  provided_dims target_dims = 0%nat.
Proof.
  unfold provided_dims. induction target_dims as [|[k v] r IH]; intros H;
    [reflexivity|].
  cbn [filter snd]. rewrite (H k v (or_introl eq_refl)). cbn [is_not_None].
  apply IH. intros k' v' Hin. apply (H k'). now right.
Qed.

Lemma center_and_align_stages_none (obj : Object) (w d h : Q) :
  extents obj = Ok (sizes w d h) -> ~ w == 0 -> ~ d == 0 -> ~ h == 0 ->
  center_and_align obj None
  = ('(final_target_dims, s) <- scale_solver (sizes w d h) [] ;;
     Ok (set_location (scaled_object obj s)
           (Vopp (bbox_center (get_bounding_box (scaled_object obj s)))),
         final_target_dims, sizes (w * s) (d * s) (h * s))).
Proof.
  intros HE Hw Hd Hh. unfold center_and_align.
  change (compute_model_sizes _) with (extents obj). rewrite HE.
  cbn [bind validate_sizes sizes].
  rewrite (Qeq_bool_nonzero Hw), (Qeq_bool_nonzero Hd), (Qeq_bool_nonzero Hh).
  reflexivity.
Qed.

(** With no target dictionary, or one that is empty or maps every key it has
    to [None], a mesh with non-zero extents is left at scale 1 and the final
    dimensions are its extents, all three resolved. *)
Theorem center_and_align_nothing_provided (obj : Object)
    (target_dims : option (dict (option Q))) (w d h : Q) :
  extents obj = Ok (sizes w d h) -> ~ w == 0 -> ~ d == 0 -> ~ h == 0 ->
  (forall t k v, target_dims = Some t -> In (k, v) t -> v = None) ->
  exists obj',
    center_and_align obj target_dims
    = Ok (obj', [("width", Some w); ("depth", Some d); ("height", Some h)],
          sizes (w * 1) (d * 1) (h * 1)).
Proof.
  intros HE Hw Hd Hh Hnone.
  assert (Hsolve : forall t, provided_dims t = 0%nat ->
            scale_solver (sizes w d h) t
            = Ok ([("width", Some w); ("depth", Some d); ("height", Some h)],
                  1)).
  { intros t Ht. unfold scale_solver. rewrite Ht. reflexivity. }
  destruct target_dims as [t|].
  - rewrite (@center_and_align_stages obj t w d h HE Hw Hd Hh).
    rewrite Hsolve.
    + cbn [bind]. eexists. reflexivity.
    + apply provided_dims_zero. intros k v. now apply Hnone.
  - rewrite (@center_and_align_stages_none obj w d h HE Hw Hd Hh).
    rewrite Hsolve by reflexivity. cbn [bind]. eexists. reflexivity.
Qed.

Lemma center_and_align_nothing_provided_witness :
  exists obj',
    center_and_align sample_obj (Some [("width", None); ("colour", None)])
    = Ok (obj', [("width", Some 50); ("depth", Some 30); ("height", Some 80)],
          sizes (50 * 1) (30 * 1) (80 * 1)).
Proof.
  apply (@center_and_align_nothing_provided sample_obj
           (Some [("width", None); ("colour", None)]) 50 30 80);
    try reflexivity; try discriminate.
  intros t k v [= <-] [[= _ <-]|[[= _ <-]|[]]]; reflexivity.
Defined.

Lemma dict_lookup_key {V : Type} (d : dict V) (k : string) :
  In k (dict_keys d) -> exists v, dict_lookup d k = Some v.
Proof.
  unfold dict_keys. induction d as [|[k' v'] r IH]; cbn; [intros []|].
  destruct (String.eqb_spec k' k) as [->|Hne]; [eauto|].
  intros [E|Hin]; [contradiction | now apply IH].
Qed.

Lemma dict_lookup_wf {V : Type} (d : dict V) (k : string) (v : V) :
  dict_wf d -> In (k, v) d -> dict_lookup d k = Some v.
Proof.
  unfold dict_wf, dict_keys. induction d as [|[k' v'] r IH]; cbn;
    [intros _ []|].
  intros Hwf Hin. inversion Hwf as [|? ? Hnotin Hwf']; subst.
  destruct (String.eqb_spec k' k) as [->|Hne].
  - destruct Hin as [[= ->]|Hin]; [reflexivity|].
    exfalso. apply Hnotin. now apply (in_map fst) in Hin.
  - destruct Hin as [[= -> _]|Hin]; [contradiction | now apply IH].
Qed.

Lemma provided_dims_some (target_dims : dict (option Q)) :
  provided_dims target_dims <> 0%nat ->
  exists k t, In (k, Some t) target_dims.
Proof.
  unfold provided_dims. induction target_dims as [|[k v] r IH];
    cbn [filter snd]; [intros H; now contradiction H|].
  destruct v as [t|]; cbn [is_not_None].
  - intros _. exists k, t. now left.
  - intros H. destruct (IH H) as (k' & t' & Hin). exists k', t'. now right.
Qed.

Lemma sizes_getitem_axis (w d h : Q) (k : string) :
  ~ w == 0 -> ~ d == 0 -> ~ h == 0 -> In k axes ->
  exists e, dict_getitem (sizes w d h) k = Ok e /\ ~ e == 0.
Proof.
  intros Hw Hd Hh [<-|[<-|[<-|[]]]]; cbn; eauto.
Qed.

Lemma sizes_getitem_other (w d h : Q) (k : string) :
  ~ In k axes -> dict_getitem (sizes w d h) k = Err (KeyError k).
Proof.
  intros Hk. unfold dict_getitem, sizes. cbn [dict_lookup].
  destruct (String.eqb_spec "width" k) as [<-|_];
    [exfalso; apply Hk; cbn; auto|].
  destruct (String.eqb_spec "depth" k) as [<-|_];
    [exfalso; apply Hk; cbn; auto|].
  destruct (String.eqb_spec "height" k) as [<-|_];
    [exfalso; apply Hk; cbn; auto|].
  reflexivity.
Qed.

Lemma scales_of_cons_some (ms : dict Q) (td : dict (option Q)) (k : string)
    (r : list string) (t : Q) :
  dict_lookup td k = Some (Some t) ->
  scales_of ms td (k :: r)
  = (e <- dict_getitem ms k ;; s <- py_div t e ;;
     rest <- scales_of ms td r ;; Ok (s :: rest)).
Proof. intros H. cbn [scales_of]. unfold dict_getitem at 1. now rewrite H. Qed.

Lemma scales_of_cons_none (ms : dict Q) (td : dict (option Q)) (k : string)
    (r : list string) :
  dict_lookup td k = Some None ->
  scales_of ms td (k :: r) = scales_of ms td r.
Proof. intros H. cbn [scales_of]. unfold dict_getitem at 1. now rewrite H. Qed.

Section Keys.

Variables w d h : Q.
Hypothesis Hw : ~ w == 0.
Hypothesis Hd : ~ d == 0.
Hypothesis Hh : ~ h == 0.
Variable target_dims : dict (option Q).

Lemma scales_of_cases (keys : list string) :
  (forall k, In k keys -> exists v, dict_lookup target_dims k = Some v) ->
  (exists l,
     scales_of (sizes w d h) target_dims keys = Ok l /\
     (forall k, In k keys -> ~ stray_key target_dims k) /\
     ((exists k t, In k keys /\ dict_lookup target_dims k = Some (Some t)) ->
      l <> [])) \/
  (exists k,
     In k keys /\ stray_key target_dims k /\
     scales_of (sizes w d h) target_dims keys = Err (KeyError k)).
Proof.
  induction keys as [|k r IH]; intros Hkeys.
  - left. exists []. split; [reflexivity|]. split; [intros k []|].
    intros (k & t & [] & _).
  - destruct (Hkeys k (or_introl eq_refl)) as (v & Hv).
    assert (Hr : forall k', In k' r ->
                   exists v', dict_lookup target_dims k' = Some v')
      by (intros k' Hk'; apply Hkeys; now right).
    specialize (IH Hr).
    destruct v as [t|];
      [rewrite (@scales_of_cons_some _ _ _ _ _ Hv)
      | rewrite (@scales_of_cons_none _ _ _ _ Hv)].
    + destruct (in_dec string_dec k axes) as [Hax|Hax].
      * destruct (@sizes_getitem_axis w d h k Hw Hd Hh Hax) as (e & He & Hne).
        rewrite He. cbn [bind]. rewrite (py_div_nonzero t Hne). cbn [bind].
        destruct IH as [(l & Hl & Hok & _)|(k' & Hin & Hs & Hl)].
        -- left. rewrite Hl. cbn [bind]. eexists. split; [reflexivity|].
           split; [|intros _; discriminate].
           intros k' [<-|Hk']; [|now apply Hok].
           intros (t' & _ & Hn). contradiction.
        -- right. exists k'. rewrite Hl. cbn [bind].
           split; [now right|]. split; [exact Hs | reflexivity].
      * right. exists k. split; [now left|]. split; [exists t; auto|].
        rewrite (sizes_getitem_other w d h Hax). reflexivity.
    + destruct IH as [(l & Hl & Hok & Hne)|(k' & Hin & Hs & Hl)].
      * left. exists l. split; [exact Hl|]. split.
        -- intros k' [<-|Hk']; [|now apply Hok].
           intros (t' & Ht' & _). congruence.
        -- intros (k' & t' & [<-|Hk'] & Ht'); [congruence|].
           apply Hne. eauto.
      * right. exists k'. split; [now right|]. split; assumption.
Qed.

End Keys.

(** For a mesh with non-zero extents and a target dictionary (its keys
    pairwise distinct, as in any dictionary): [center_and_align] returns when
    every key with a value other than [None] is one of width, depth and
    height, and otherwise raises [KeyError] for such a key that is none of
    the three.  Keys mapped to [None] are never looked up in the extents. *)
Theorem center_and_align_keys (obj : Object) (target_dims : dict (option Q))
    (w d h : Q) :
  dict_wf target_dims ->
  extents obj = Ok (sizes w d h) -> ~ w == 0 -> ~ d == 0 -> ~ h == 0 ->
  ((forall k, ~ stray_key target_dims k) /\
   exists r, center_and_align obj (Some target_dims) = Ok r) \/
  (exists k,
     stray_key target_dims k /\
     center_and_align obj (Some target_dims) = Err (KeyError k)).
Proof.
  intros Hwf HE Hw Hd Hh.
  rewrite (@center_and_align_stages obj target_dims w d h HE Hw Hd Hh).
  unfold scale_solver.
  destruct (Nat.eqb_spec (provided_dims target_dims) 0) as [Hp|Hp].
  - left. split; [|cbn [bind]; eauto].
    intros k (t & Ht & _).
    assert (Hin : In (k, Some t) target_dims).
    { apply dict_getitem_in. unfold dict_getitem. now rewrite Ht. }
    clear - Hp Hin. unfold provided_dims in Hp.
    induction target_dims as [|[k' v'] r IH]; [destruct Hin|].
    cbn [filter snd] in Hp. destruct Hin as [[= -> ->]|Hin].
    + cbn in Hp. discriminate.
    + destruct (is_not_None v'); [discriminate | now apply IH].
  - destruct (@scales_of_cases w d h Hw Hd Hh target_dims
                (dict_keys target_dims) (@dict_lookup_key _ target_dims))
      as [(l & Hl & Hok & Hne)|(k & _ & Hs & Hl)].
    + left. split.
      * intros k Hs. apply (Hok k); [|exact Hs].
        destruct Hs as (t & Ht & _).
        assert (Hin : In (k, Some t) target_dims).
        { apply dict_getitem_in. unfold dict_getitem. now rewrite Ht. }
        apply (in_map fst) in Hin. exact Hin.
      * rewrite Hl. cbn [bind].
        destruct (py_min_nonempty (l:=l)) as (s & Hs).
        { apply Hne. destruct (@provided_dims_some target_dims Hp) as (k & t & Hin).
          exists k, t. split.
          - apply (in_map fst) in Hin. exact Hin.
          - now apply dict_lookup_wf. }
        rewrite Hs. cbn [bind resolve_dims sizes dict_getitem dict_lookup
                            String.eqb Ascii.eqb Bool.eqb].
        eauto.
    + right. exists k. split; [exact Hs|]. rewrite Hl. reflexivity.
Qed.

Lemma center_and_align_keys_witness :
  ((forall k, ~ stray_key [("width", Some 100); ("colour", Some 3)] k) /\
   exists r,
     center_and_align sample_obj
       (Some [("width", Some 100); ("colour", Some 3)]) = Ok r) \/
  (exists k,
     stray_key [("width", Some 100); ("colour", Some 3)] k /\
     center_and_align sample_obj
       (Some [("width", Some 100); ("colour", Some 3)]) = Err (KeyError k)).
Proof.
  apply (@center_and_align_keys sample_obj
           [("width", Some 100); ("colour", Some 3)] 50 30 80);
    try reflexivity; try discriminate.
  repeat constructor; cbn; intuition discriminate.
Defined.

(** ** The scaled mesh inside the block *)

(** In exact arithmetic, for a mesh without rotation whose bounding box is
    an axis-aligned box with strictly positive extents, and a non-empty
    envelope of strictly positive targets:
    after [center_and_align] every corner of the world bounding box lies
    within half the final dimension of the origin on each axis, so the mesh
    fits the block of the final dimensions centred at the origin. *)
Theorem center_and_align_fits_block (obj : Object) (lo hi : Vector)
    (w d h : Q) (bw bh bd : option Q) :
  bound_box obj = box lo hi ->
  extents obj = Ok (sizes w d h) ->
  0 < w -> 0 < d -> 0 < h ->
  positive_if_set bw -> positive_if_set bh -> positive_if_set bd ->
  ~ (bw = None /\ bh = None /\ bd = None) ->
  exists obj' fw fd fh scaled,
    center_and_align obj (Some (target_dims_of bw bh bd))
    = Ok (obj',
          [("width", Some fw); ("depth", Some fd); ("height", Some fh)],
          scaled) /\
    forall v, In v (get_bounding_box obj') ->
      - (fw / 2) <= x v <= fw / 2 /\
      - (fd / 2) <= y v <= fd / 2 /\
      - (fh / 2) <= z v <= fh / 2.
Proof.
  intros Hbox HE Hw Hd Hh Pw Ph Pd Hset.
  assert (Hstages := @center_and_align_stages obj (target_dims_of bw bh bd)
                       w d h HE (pos_nonzero Hw) (pos_nonzero Hd)
                       (pos_nonzero Hh)).
  destruct (@solver_on_envelope w d h bw bh bd Hw Hd Hh Hset)
    as (s & Hmin & Hs).
  rewrite Hs in Hstages. cbn [bind] in Hstages.
  assert (Hpos : 0 < s).
  { destruct Hmin as [Hin _].
    eapply min_ratio_pos; [exact Hw | exact Hd | exact Hh | exact Pw
                          | exact Ph | exact Pd | exact Hin]. }
  destruct (min_below _ _ _ _ _ _ Hmin) as (Lw & Lh & Ld).
  assert (Gw := @resolved_ge bw w s Hw Lw).
  assert (Gd := @resolved_ge bd d s Hd Ld).
  assert (Gh := @resolved_ge bh h s Hh Lh).
  destruct (@extents_shape obj _ HE) as (w' & d' & h' & [= <- <- <-] & Hsp).
  rewrite Hbox in Hsp.
  assert (S1 := Hsp (mkVector (x lo) (y lo) (z lo))
                    (mkVector (x hi) (y hi) (z hi))).
  assert (S2 := Hsp (mkVector (x hi) (y hi) (z hi))
                    (mkVector (x lo) (y lo) (z lo))).
  destruct S1 as (X1 & Y1 & Z1); [cbn; auto | cbn; auto 10|].
  destruct S2 as (X2 & Y2 & Z2); [cbn; auto 10 | cbn; auto|].
  assert (Hs0 : 0 <= s) by now apply Qlt_le_weak.
  apply (@Qmult_le_mono_nonneg s _ _ Hs0) in X1.
  apply (@Qmult_le_mono_nonneg s _ _ Hs0) in Y1.
  apply (@Qmult_le_mono_nonneg s _ _ Hs0) in Z1.
  apply (@Qmult_le_mono_nonneg s _ _ Hs0) in X2.
  apply (@Qmult_le_mono_nonneg s _ _ Hs0) in Y2.
  apply (@Qmult_le_mono_nonneg s _ _ Hs0) in Z2.
  eexists _, _, _, _, _. split; [exact Hstages|].
  unfold get_bounding_box, set_location, scaled_object, transform_apply,
    bbox_center, matrix_world, set_scale.
  cbn [bound_box location scale]. rewrite Hbox.
  destruct lo as [lx ly lz], hi as [hx hy hz].
  cbn in *.
  intros v Hv.
  clear Hstages Hs Hsp Hbox HE.
  repeat (destruct Hv as [<-|Hv];
          [cbn; unfold Qdiv; change (/ 8) with (1 # 8);
           change (/ 2) with (1 # 2); repeat split; lra|]).
  destruct Hv.
Qed.

Lemma center_and_align_fits_block_witness :
  exists obj' fw fd fh scaled,
    center_and_align sample_obj
      (Some (target_dims_of (Some 100) (Some 200) None))
    = Ok (obj',
          [("width", Some fw); ("depth", Some fd); ("height", Some fh)],
          scaled) /\
    forall v, In v (get_bounding_box obj') ->
      - (fw / 2) <= x v <= fw / 2 /\
      - (fd / 2) <= y v <= fd / 2 /\
      - (fh / 2) <= z v <= fh / 2.
Proof.
  apply (@center_and_align_fits_block sample_obj (mkVector 10 0 (-5))
           (mkVector 60 30 75) 50 30 80 (Some 100) (Some 200) None);
    try reflexivity; try exact I.
  intros (H & _). discriminate H.
Defined.



(** ** Pixels, monotonically *)

Lemma py_int_nonpos_ceiling (q : Q) :
  q <= 0 -> py_int q = (- Qfloor (- q))%Z.
Proof.
  destruct q as [n dn]. unfold Qle, py_int, Qfloor, Qopp. cbn. intros H.
  rewrite <- (Z.opp_involutive n) at 1. rewrite Z.quot_opp_l by lia.
  rewrite Z.quot_div_nonneg by lia. reflexivity.
Qed.

Lemma py_int_monotone (p q : Q) : p <= q -> (py_int p <= py_int q)%Z.
Proof.
  intros Hpq. destruct (Qlt_le_dec p 0) as [Hp|Hp].
  - destruct (Qlt_le_dec q 0) as [Hq|Hq].
    + rewrite !py_int_nonpos_ceiling by now apply Qlt_le_weak.
      assert (H : (Qfloor (- q) <= Qfloor (- p))%Z)
        by (apply Qfloor_resp_le; lra).
      lia.
    + assert (H1 := @py_int_nonpos p (Qlt_le_weak _ _ Hp)).
      rewrite (py_int_nonneg Hq).
      assert (H2 := Qfloor_resp_le 0 q Hq). cbn in H2. lia.
  - rewrite (py_int_nonneg Hp).
    rewrite (@py_int_nonneg q) by (apply Qle_trans with p; assumption).
    now apply Qfloor_resp_le.
Qed.

(** With a dpi that is not negative, a larger size in millimetres never
    gives fewer pixels, and a size that is not negative never gives a
    negative number of pixels. *)
Theorem mm_to_pixels_monotone (mm1 mm2 : Q) (dpi : Z) :
  (0 <= dpi)%Z -> mm1 <= mm2 ->
  (mm_to_pixels mm1 dpi <= mm_to_pixels mm2 dpi)%Z /\
  (0 <= mm1 -> (0 <= mm_to_pixels mm1 dpi)%Z).
Proof.
  intros Hdpi Hmm.
  assert (Hd : 0 <= inject_Z dpi) by (unfold Qle; cbn; lia).
  assert (Hmono : forall a b, a <= b ->
            a * inject_Z dpi / (254 # 10) <= b * inject_Z dpi / (254 # 10)).
  { intros a b Hab. unfold Qdiv. apply Qmult_le_compat_r; [|discriminate].
    apply Qmult_le_compat_r; assumption. }
  split.
  - unfold mm_to_pixels. apply py_int_monotone, Hmono, Hmm.
  - intros H0. unfold mm_to_pixels.
    change 0%Z with (py_int (0 * inject_Z dpi / (254 # 10))).
    apply py_int_monotone, Hmono, H0.
Qed.

Lemma mm_to_pixels_monotone_witness :
  (mm_to_pixels 100 300 <= mm_to_pixels 160 300)%Z /\
  (0 <= 100 -> (0 <= mm_to_pixels 100 300)%Z).
Proof.
  apply (@mm_to_pixels_monotone 100 160 300); [lia | discriminate].
Defined.

(** * Binary64: what the running script computes and what the scene holds *)

(** ** Signs

    Rounding keeps the sign: a product or a quotient of finite numbers is a
    zero, or a finite number or an infinity of the expected sign, and never
    [nan]. *)

Lemma shr_1_nonneg (mrs : shr_record) :
  (0 <= shr_m mrs)%Z -> (0 <= shr_m (shr_1 mrs))%Z.
Proof.
  destruct mrs as [m r s]. cbn [shr_m]. intros H.
  destruct m as [|p|p]; [cbn; lia| |lia].
  destruct p; cbn; lia.
Qed.

Lemma iter_shr_1_nonneg (p : positive) :
  forall mrs, (0 <= shr_m mrs)%Z -> (0 <= shr_m (iter_pos shr_1 p mrs))%Z.
Proof.
  induction p as [p IH|p IH|]; intros mrs H; cbn [iter_pos].
  - apply IH, IH, shr_1_nonneg, H.
  - apply IH, IH, H.
  - apply shr_1_nonneg, H.
Qed.

Lemma shr_fexp_nonneg (m e : Z) (l : SpecFloat.location) :
  (0 <= m)%Z ->
  (0 <= shr_m (fst (shr_fexp Binary64.prec Binary64.emax m e l)))%Z.
Proof.
  intros H. unfold shr_fexp, shr.
  assert (H0 : (0 <= shr_m (shr_record_of_loc m l))%Z).
  { destruct l as [|[]]; exact H. }
  destruct (_ - e)%Z; cbn [fst]; [exact H0 | | exact H0].
  apply iter_shr_1_nonneg, H0.
Qed.

Lemma round_nearest_even_nonneg (m : Z) (l : SpecFloat.location) :
  (0 <= m)%Z -> (0 <= round_nearest_even m l)%Z.
Proof.
  intros H. destruct l as [|[]]; cbn; try lia.
  destruct (Z.even m); lia.
Qed.

Lemma binary_round_aux_signed (sx : bool) (mx ex : Z) (lx : SpecFloat.location) :
  (0 <= mx)%Z ->
  Binary64.signed sx
    (binary_round_aux Binary64.prec Binary64.emax sx mx ex lx).
Proof.
  intros H. unfold binary_round_aux.
  assert (H1 := @shr_fexp_nonneg mx ex lx H).
  destruct (shr_fexp Binary64.prec Binary64.emax mx ex lx) as [mrs' e'].
  cbn [fst] in H1.
  assert (H2 := @shr_fexp_nonneg _ e' loc_Exact
                  (@round_nearest_even_nonneg _ (loc_of_shr_record mrs') H1)).
  destruct (shr_fexp _ _ _ e' loc_Exact) as [mrs'' e''].
  cbn [fst] in H2.
  destruct (shr_m mrs'') as [|m|m]; [exact I| |lia].
  destruct (e'' <=? _)%Z; reflexivity.
Qed.

Lemma of_int_signed (z : Z) : Binary64.signed (z <? 0)%Z (Binary64.of_int z).
Proof.
  unfold Binary64.of_int, binary_normalize.
  destruct z as [|m|m]; [exact I| |]; unfold binary_round;
    destruct (shl_align _ _ _) as [mz ez];
    apply binary_round_aux_signed; lia.
Qed.

Lemma mul_signed (x d : Binary64.float) (s : bool) :
  Binary64.positive_finite x -> Binary64.signed s d ->
  Binary64.signed s (Binary64.mul x d).
Proof.
  destruct x as [| | |[] mx ex]; try contradiction. intros _.
  destruct d as [sd|sd| |sd md ed]; cbn; try tauto.
  intros <-. apply binary_round_aux_signed. lia.
Qed.

Lemma div_core_nonneg (m1 e1 m2 e2 : Z) :
  (0 <= m1)%Z -> (0 < m2)%Z ->
  (0 <= fst (fst (SFdiv_core_binary Binary64.prec Binary64.emax m1 e1 m2 e2)))%Z.
Proof.
  intros H1 H2. unfold SFdiv_core_binary.
  set (s := (_ - _ - _)%Z).
  set (m' := match s with Z.pos _ => Z.shiftl m1 s | Z0 => m1 | Z.neg _ => 0%Z end).
  assert (Hm : (0 <= m')%Z).
  { subst m'. destruct s; [exact H1| |lia]. now apply Z.shiftl_nonneg. }
  assert (Hq := Z.div_pos m' m2 Hm H2). unfold Z.div in Hq.
  destruct (Z.div_eucl m' m2) as [q r]. exact Hq.
Qed.

Lemma div_signed (q c : Binary64.float) (s : bool) :
  Binary64.positive_finite c -> Binary64.signed s q ->
  Binary64.signed s (Binary64.div q c).
Proof.
  destruct c as [| | |[] mc ec]; try contradiction. intros _.
  destruct q as [sq|sq| |sq mq eq]; cbn; try tauto.
  - intros <-. now destruct sq.
  - intros <-.
    assert (H := @div_core_nonneg (Z.pos mq) eq (Z.pos mc) ec).
    destruct (SFdiv_core_binary _ _ _ _ _ _) as [[mz ez] lz].
    cbn [fst] in H. replace (xorb sq false) with sq by now destruct sq.
    apply binary_round_aux_signed. apply H; lia.
Qed.

Lemma c25_4_positive : Binary64.positive_finite Binary64.c25_4.
Proof. vm_compute. exact I. Qed.

Lemma pixel_quotient_signed (mm : Binary64.float) (dpi : Z) :
  Binary64.positive_finite mm ->
  Binary64.signed (dpi <? 0)%Z (Binary64.pixel_quotient mm dpi).
Proof.
  intros Hmm. unfold Binary64.pixel_quotient.
  apply div_signed; [exact c25_4_positive|].
  apply mul_signed; [exact Hmm | apply of_int_signed].
Qed.

Lemma value_signed (s : bool) (f : Binary64.float) (v : Q) :
  Binary64.signed s f -> Binary64.value f = Some v ->
  if s then v <= 0 else 0 <= v.
Proof.
  destruct f as [sf|sf| |sf m e]; cbn; try discriminate.
  - intros _ [= <-]. destruct s; apply Qle_refl.
  - intros <- [= <-].
    assert (H : 0 <= match e with
                     | Z.neg p => Z.pos m # 2 ^ p
                     | _ => inject_Z (Z.pos m * 2 ^ e)
                     end).
    { destruct e as [|p|p].
      - unfold Qle. cbn. lia.
      - unfold Qle, inject_Z. cbn [Qnum Qden].
        rewrite Z.mul_0_l, Z.mul_1_r.
        apply Z.mul_nonneg_nonneg; [lia | apply Z.pow_nonneg; lia].
      - unfold Qle. cbn. lia. }
    set (q := match e with
              | Z.neg p => Z.pos m # 2 ^ p
              | _ => inject_Z (Z.pos m * 2 ^ e)
              end) in *.
    destruct sf; [|exact H].
    apply (Qopp_le_compat 0 q) in H. exact H.
Qed.

(** ** Render settings in binary64 *)

Lemma quotient_of_infinite_dpi (mm c : Binary64.float) (s : bool) :
  Binary64.positive_finite c ->
  Binary64.value (Binary64.div (Binary64.mul mm (S754_infinity s)) c) = None.
Proof.
  destruct c as [| | |[] mc ec]; try contradiction. intros _.
  destruct mm as [sm|sm| |sm m e]; reflexivity.
Qed.

Lemma mm_to_pixels_value (mm : Binary64.float) (dpi : Z) (v : Q) :
  Binary64.value (Binary64.pixel_quotient mm dpi) = Some v ->
  Binary64.mm_to_pixels mm dpi = Ok (py_int v).
Proof.
  unfold Binary64.pixel_quotient, Binary64.mm_to_pixels,
    Binary64.float_of_int. intros Hv.
  destruct (Binary64.of_int dpi) as [sd|sd| |sd md ed] eqn:Ed; cbn [bind].
  2:{ rewrite (@quotient_of_infinite_dpi mm _ sd c25_4_positive) in Hv.
      discriminate. }
  all: unfold Binary64.int_of_float; rewrite Hv; reflexivity.
Qed.

Lemma set_int_property_in_range (n : Z) :
  (Binary64.INT_MIN <= n <= Binary64.INT_MAX)%Z ->
  Binary64.set_int_property 4 65536 n = Ok (Binary64.clamp_resolution n).
Proof.
  intros [H1 H2]. unfold Binary64.set_int_property.
  destruct (Z.ltb_spec n Binary64.INT_MIN); [lia|].
  destruct (Z.ltb_spec Binary64.INT_MAX n); [lia|]. reflexivity.
Qed.

Lemma set_render_settings_values (scene : Binary64.Scene) (view_name : string)
    (w h : Binary64.float) (dpi : Z) (output_dir : string) (vw vh : Q) :
  Binary64.value (Binary64.pixel_quotient w dpi) = Some vw ->
  Binary64.value (Binary64.pixel_quotient h dpi) = Some vh ->
  (Binary64.INT_MIN <= py_int vw <= Binary64.INT_MAX)%Z ->
  (Binary64.INT_MIN <= py_int vh <= Binary64.INT_MAX)%Z ->
  Binary64.set_render_settings scene view_name (Some w) (Some h) dpi output_dir
  = Ok (Binary64.mkScene (Binary64.clamp_resolution (py_int vw))
          (Binary64.clamp_resolution (py_int vh)) 100 "PNG"
          (output_dir, view_name ++ ".png")).
Proof.
  intros Hw Hh Rw Rh. unfold Binary64.set_render_settings.
  cbn [Binary64.some_float bind].
  rewrite (mm_to_pixels_value _ _ Hw). cbn [bind].
  rewrite (set_int_property_in_range Rw). cbn [bind].
  rewrite (mm_to_pixels_value _ _ Hh). cbn [bind].
  rewrite (set_int_property_in_range Rh). reflexivity.
Qed.

Lemma INT_MIN_neg : (Binary64.INT_MIN <= 0 <= Binary64.INT_MAX)%Z.
Proof. unfold Binary64.INT_MIN, Binary64.INT_MAX. lia. Qed.

(** C8, as stated, fails: 0.7619999999999999 mm at 300 dpi is given 9 pixels
    on each axis, while the floor of the exact quotient by 25.4 is 8. *)
Lemma set_render_settings_not_exact_floor :
  let mm := Binary64.decimal 7619999999999999 16 in
  exists vm scene',
    Binary64.value mm = Some vm /\ 0 < vm /\
    Qfloor (vm * inject_Z 300 / (254 # 10)) = 8%Z /\
    Binary64.set_render_settings blank_scene64 "front" (Some mm) (Some mm) 300
      "output" = Ok scene' /\
    Binary64.resolution_x scene' = 9%Z /\
    Binary64.resolution_y scene' = 9%Z.
Proof.
  cbv zeta. eexists _, _. split; [vm_compute; reflexivity|].
  split; [reflexivity|]. split; [vm_compute; reflexivity|].
  split; [vm_compute; reflexivity|]. split; reflexivity.
Qed.

(** C8, amended.  For strictly positive sizes and a strictly positive dpi
    whose binary64 quotients [mm * dpi / 25.4] are finite, with an integer
    part within the range of a C [int]: [int()] gives the floor of the
    binary64 quotient, each operation rounded, on the width and on the
    height alike, and the scene holds it clamped to 4 .. 65536. *)
Theorem set_render_settings_binary64_floor (scene : Binary64.Scene)
    (view_name : string) (w h : Binary64.float) (dpi : Z)
    (output_dir : string) (vw vh : Q) :
  Binary64.positive_finite w -> Binary64.positive_finite h -> (0 < dpi)%Z ->
  Binary64.value (Binary64.pixel_quotient w dpi) = Some vw ->
  Binary64.value (Binary64.pixel_quotient h dpi) = Some vh ->
  (Qfloor vw <= Binary64.INT_MAX)%Z -> (Qfloor vh <= Binary64.INT_MAX)%Z ->
  0 <= vw /\ 0 <= vh /\
  Binary64.mm_to_pixels w dpi = Ok (Qfloor vw) /\
  Binary64.mm_to_pixels h dpi = Ok (Qfloor vh) /\
  Binary64.set_render_settings scene view_name (Some w) (Some h) dpi output_dir
  = Ok (Binary64.mkScene (Binary64.clamp_resolution (Qfloor vw))
          (Binary64.clamp_resolution (Qfloor vh)) 100 "PNG"
          (output_dir, view_name ++ ".png")).
Proof.
  intros Pw Ph Hdpi Hw Hh Rw Rh.
  assert (Sw := @value_signed _ _ _ (@pixel_quotient_signed w dpi Pw) Hw).
  assert (Sh := @value_signed _ _ _ (@pixel_quotient_signed h dpi Ph) Hh).
  destruct (Z.ltb_spec dpi 0) as [|_]; [lia|].
  assert (Fw := py_int_nonneg Sw). assert (Fh := py_int_nonneg Sh).
  assert (Nw : (0 <= Qfloor vw)%Z)
    by (change 0%Z with (Qfloor 0); now apply Qfloor_resp_le).
  assert (Nh : (0 <= Qfloor vh)%Z)
    by (change 0%Z with (Qfloor 0); now apply Qfloor_resp_le).
  split; [exact Sw|]. split; [exact Sh|].
  rewrite <- Fw, <- Fh.
  split; [now apply mm_to_pixels_value|].
  split; [now apply mm_to_pixels_value|].
  assert (B := INT_MIN_neg).
  apply set_render_settings_values; try assumption; rewrite ?Fw, ?Fh; lia.
Qed.
Lemma set_render_settings_binary64_floor_witness :
  let w := Binary64.of_int 100 in
  let h := Binary64.of_int 160 in
  let vw := value_or_zero (Binary64.pixel_quotient w 300) in
  let vh := value_or_zero (Binary64.pixel_quotient h 300) in
  0 <= vw /\ 0 <= vh /\
  Binary64.mm_to_pixels w 300 = Ok (Qfloor vw) /\
  Binary64.mm_to_pixels h 300 = Ok (Qfloor vh) /\
  Binary64.set_render_settings blank_scene64 "front" (Some w) (Some h) 300
    "output"
  = Ok (Binary64.mkScene (Binary64.clamp_resolution (Qfloor vw))
          (Binary64.clamp_resolution (Qfloor vh)) 100 "PNG"
          ("output", "front" ++ ".png")).
Proof.
  cbv zeta.
  apply (@set_render_settings_binary64_floor blank_scene64 "front"
           (Binary64.of_int 100) (Binary64.of_int 160) 300 "output");
    try (vm_compute; reflexivity); try (vm_compute; exact I);
    vm_compute; discriminate.
Defined.



(** ** The dpi is not validated *)

(** C3, as stated, fails: with [dpi = 0] and with [dpi = -1]
    [set_render_settings] raises nothing; it assigns 0 x 0 and -3 x -6 for
    100 mm x 160 mm, and the scene holds 4 x 4. *)
Lemma set_render_settings_accepts_bad_dpi :
  Binary64.set_render_settings blank_scene64 "front"
    (Some (Binary64.of_int 100)) (Some (Binary64.of_int 160)) 0 "output"
  = Ok (Binary64.mkScene 4 4 100 "PNG" ("output", "front.png")) /\
  Binary64.set_render_settings blank_scene64 "front"
    (Some (Binary64.of_int 100)) (Some (Binary64.of_int 160)) (-1) "output"
  = Ok (Binary64.mkScene 4 4 100 "PNG" ("output", "front.png")) /\
  Binary64.mm_to_pixels (Binary64.of_int 100) 0 = Ok 0%Z /\
  Binary64.mm_to_pixels (Binary64.of_int 160) 0 = Ok 0%Z /\
  Binary64.mm_to_pixels (Binary64.of_int 100) (-1) = Ok (-3)%Z /\
  Binary64.mm_to_pixels (Binary64.of_int 160) (-1) = Ok (-6)%Z.
Proof. repeat split; vm_compute; reflexivity. Qed.

Lemma pixel_quotient_zero_dpi (mm : Binary64.float) :
  Binary64.positive_finite mm ->
  Binary64.value (Binary64.pixel_quotient mm 0) = Some 0.
Proof.
  destruct mm as [| | |[] m e]; try contradiction. intros _.
  unfold Binary64.pixel_quotient.
  change (Binary64.mul (S754_finite false m e) (Binary64.of_int 0))
    with (S754_zero false).
  generalize c25_4_positive.
  destruct Binary64.c25_4 as [| | |[] mc ec]; try contradiction.
  reflexivity.
Qed.

(** C3, amended.  For every [dpi <= 0] and strictly positive sizes whose
    binary64 quotients [mm * dpi / 25.4] are finite, with an integer part not
    below the least C [int]: [set_render_settings] returns without an error,
    the quotients are at most 0 and the scene holds 4 x 4. *)
Theorem set_render_settings_binary64_nonpositive_dpi (scene : Binary64.Scene)
    (view_name : string) (w h : Binary64.float) (dpi : Z)
    (output_dir : string) (vw vh : Q) :
  (dpi <= 0)%Z ->
  Binary64.positive_finite w -> Binary64.positive_finite h ->
  Binary64.value (Binary64.pixel_quotient w dpi) = Some vw ->
  Binary64.value (Binary64.pixel_quotient h dpi) = Some vh ->
  (Binary64.INT_MIN <= py_int vw)%Z -> (Binary64.INT_MIN <= py_int vh)%Z ->
  vw <= 0 /\ vh <= 0 /\
  Binary64.set_render_settings scene view_name (Some w) (Some h) dpi output_dir
  = Ok (Binary64.mkScene 4 4 100 "PNG" (output_dir, view_name ++ ".png")).
Proof.
  intros Hdpi Pw Ph Hw Hh Rw Rh.
  assert (Sw : vw <= 0).
  { destruct (Z.eq_dec dpi 0) as [->|Hne].
    - rewrite (@pixel_quotient_zero_dpi w Pw) in Hw. injection Hw as <-.
      apply Qle_refl.
    - assert (S := @value_signed _ _ _ (@pixel_quotient_signed w dpi Pw) Hw).
      destruct (Z.ltb_spec dpi 0); [exact S | lia]. }
  assert (Sh : vh <= 0).
  { destruct (Z.eq_dec dpi 0) as [->|Hne].
    - rewrite (@pixel_quotient_zero_dpi h Ph) in Hh. injection Hh as <-.
      apply Qle_refl.
    - assert (S := @value_signed _ _ _ (@pixel_quotient_signed h dpi Ph) Hh).
      destruct (Z.ltb_spec dpi 0); [exact S | lia]. }
  split; [exact Sw|]. split; [exact Sh|].
  assert (Nw := py_int_nonpos Sw). assert (Nh := py_int_nonpos Sh).
  assert (B := INT_MIN_neg).
  rewrite (@set_render_settings_values scene view_name w h dpi output_dir
             vw vh Hw Hh) by lia.
  unfold Binary64.clamp_resolution.
  rewrite !Z.max_l by lia. reflexivity.
Qed.
Lemma set_render_settings_binary64_nonpositive_dpi_witness :
  let w := Binary64.of_int 100 in
  let h := Binary64.of_int 160 in
  value_or_zero (Binary64.pixel_quotient w (-1)) <= 0 /\
  value_or_zero (Binary64.pixel_quotient h (-1)) <= 0 /\
  Binary64.set_render_settings blank_scene64 "front" (Some w) (Some h) (-1)
    "output"
  = Ok (Binary64.mkScene 4 4 100 "PNG" ("output", "front" ++ ".png")).
Proof.
  cbv zeta.
  apply (@set_render_settings_binary64_nonpositive_dpi blank_scene64 "front"
           (Binary64.of_int 100) (Binary64.of_int 160) (-1) "output");
    try (vm_compute; reflexivity); try (vm_compute; exact I);
    vm_compute; discriminate.
Defined.

(** ** Rounding in the scale solver *)


(** C6, as stated, fails in binary64: after the run above, the solver run
    again on the scaled extents with the final dimensions as the target
    returns the same final dimensions and a scale factor below 1. *)
Lemma second_scale_is_not_one :
  let E := Binary64.sizes (Binary64.of_int 50) (Binary64.of_int 30)
             (Binary64.of_int 80) in
  exists final s s',
    Binary64.scale_solver E [("width", Some (Binary64.of_int 7))]
    = Ok (final, s) /\
    Binary64.scale_solver (Binary64.scaled_dims E s)
      [("width", dict_get final "width" None);
       ("height", dict_get final "height" None);
       ("depth", dict_get final "depth" None)]
    = Ok (final, s') /\
    Binary64.eqb s' Binary64.one = false /\
    Binary64.ltb s' Binary64.one = true.
Proof.
  cbv zeta. eexists _, _, _. split; [vm_compute; reflexivity|].
  split; [vm_compute; reflexivity|]. split; vm_compute; reflexivity.
Qed.

(** ** Arguments in binary64 *)

Lemma leb_zero_false (f : Binary64.float) :
  Binary64.leb f (S754_zero false) = false <->
  Binary64.positive f \/ f = S754_nan.
Proof.
  destruct f as [s|[]| |[] m e]; cbn; split; intros H;
    try discriminate; try tauto; try (now right); try (now left);
    destruct H as [H|H]; try contradiction; discriminate.
Qed.

Lemma validate_positive_binary64 (bw bh bd : option Binary64.float) :
  Binary64.validate_positive
    [("width", bw); ("height", bh); ("depth", bd)] = None <->
  accepted_dimension bw /\ accepted_dimension bh /\ accepted_dimension bd.
Proof.
  cbn [Binary64.validate_positive].
  destruct bw as [w|], bh as [h|], bd as [d|]; cbn [accepted_dimension];
    repeat match goal with
           | |- context [Binary64.leb ?v (S754_zero false)] =>
               let E := fresh "E" in
               destruct (Binary64.leb v (S754_zero false)) eqn:E
           end;
    repeat match goal with
           | E : Binary64.leb _ _ = false |- _ => apply leb_zero_false in E
           end;
    split; try discriminate; try tauto;
    intros (A & B & C);
    repeat match goal with
           | H : _ \/ _ |- _ => apply leb_zero_false in H
           end; congruence.
Qed.

(** The validation of [parse_arguments] returns the three dimensions, as
    given, exactly when the model file exists, its suffix is [.glb] or
    [.gltf] in any letter case, at least one dimension is given and no given
    dimension satisfies [value <= 0]: each is strictly positive, [inf]
    included, or is [nan]. *)
Theorem validate_arguments_binary64_accepts (args : Binary64.Namespace)
    (r : option Binary64.float * option Binary64.float * option Binary64.float) :
  Binary64.validate_arguments args = inr r <->
  Binary64.model_exists args = true /\
  In (lower (Binary64.model_suffix args)) SUPPORTED_EXTENSIONS /\
  ~ (Binary64.block_width args = None /\ Binary64.block_height args = None /\
     Binary64.block_depth args = None) /\
  accepted_dimension (Binary64.block_width args) /\
  accepted_dimension (Binary64.block_height args) /\
  accepted_dimension (Binary64.block_depth args) /\
  r = (Binary64.block_width args, Binary64.block_height args,
       Binary64.block_depth args).
Proof.
  destruct args as [ex sfx bw bh bd]. unfold Binary64.validate_arguments.
  cbn [Binary64.model_exists Binary64.model_suffix Binary64.block_width
       Binary64.block_height Binary64.block_depth].
  assert (Hin : str_in (lower sfx) SUPPORTED_EXTENSIONS = true <->
                In (lower sfx) SUPPORTED_EXTENSIONS).
  { unfold str_in. rewrite existsb_exists. split.
    - intros (y & Hy & E). apply String.eqb_eq in E. now subst.
    - intros H. exists (lower sfx). split; [assumption|apply String.eqb_refl]. }
  destruct ex; cbn [negb].
  2:{ split; [discriminate | intros (H & _); discriminate]. }
  destruct (str_in (lower sfx) SUPPORTED_EXTENSIONS) eqn:Es; cbn [negb].
  2:{ split; [discriminate|]. intros (_ & H & _). apply Hin in H.
      discriminate. }
  assert (Hs := proj1 Hin eq_refl).
  destruct (forallb _ _) eqn:Ea.
  - split; [discriminate|]. intros (_ & _ & H & _). exfalso. apply H.
    cbn in Ea. destruct bw, bh, bd; cbn in Ea; try discriminate; auto.
  - assert (Hsome : ~ (bw = None /\ bh = None /\ bd = None)).
    { intros (-> & -> & ->). discriminate. }
    destruct (Binary64.validate_positive _) as [e|] eqn:Ev.
    + split; [discriminate|]. intros (_ & _ & _ & A & B & C & _).
      assert (H : Binary64.validate_positive
                    [("width", bw); ("height", bh); ("depth", bd)] = None)
        by (apply validate_positive_binary64; auto).
      congruence.
    + apply validate_positive_binary64 in Ev. destruct Ev as (A & B & C).
      split.
      * intros [= <-]. repeat split; auto.
      * intros (_ & _ & _ & _ & _ & _ & ->). reflexivity.
Qed.

(** [--block-width nan] is accepted. *)
Example validate_arguments_binary64_nan :
  Binary64.validate_arguments
    (Binary64.mkNamespace true ".glb" (Some S754_nan) None None)
  = inr (Some S754_nan, None, None).
Proof. reflexivity. Qed.

(** ** Unresolved dimensions in a view *)

Lemma bind_not_type_error {A B : Type} (m : result A) (k : A -> result B) :
  m <> Err TypeError -> (forall a, k a <> Err TypeError) ->
  bind m k <> Err TypeError.
Proof.
  intros Hm Hk. destruct m as [a|e]; cbn; [apply Hk|].
  intros [= ->]. now apply Hm.
Qed.

Lemma mm_to_pixels_not_type_error (mm : Binary64.float) (dpi : Z) :
  Binary64.mm_to_pixels mm dpi <> Err TypeError.
Proof.
  unfold Binary64.mm_to_pixels. apply bind_not_type_error.
  - unfold Binary64.float_of_int. destruct (Binary64.of_int dpi); discriminate.
  - intros d. unfold Binary64.int_of_float.
    destruct (Binary64.value _); [discriminate|].
    destruct (Binary64.div _ _); discriminate.
Qed.

Lemma set_int_property_not_type_error (lo hi v : Z) :
  Binary64.set_int_property lo hi v <> Err TypeError.
Proof.
  unfold Binary64.set_int_property. destruct (_ || _); discriminate.
Qed.

Lemma set_render_settings_not_type_error (scene : Binary64.Scene)
    (view_name : string) (w h : Binary64.float) (dpi : Z)
    (output_dir : string) :
  Binary64.set_render_settings scene view_name (Some w) (Some h) dpi output_dir
  <> Err TypeError.
Proof.
  unfold Binary64.set_render_settings. cbn [Binary64.some_float bind].
  apply bind_not_type_error; [apply mm_to_pixels_not_type_error|]. intros x.
  apply bind_not_type_error; [apply set_int_property_not_type_error|].
  intros rx.
  apply bind_not_type_error; [apply mm_to_pixels_not_type_error|]. intros y.
  apply bind_not_type_error; [apply set_int_property_not_type_error|].
  intros ry. discriminate.
Qed.

(** On final dimensions that hold the three axes, each possibly [None],
    [render_view] raises [TypeError] exactly when one of the two axes of the
    view is [None]: with the height unresolved the four side views raise it
    and the top view does not. *)
Theorem render_view_binary64_unresolved (cam : Binary64.Camera)
    (scene : Binary64.Scene) (fw fd fh : option Binary64.float) :
  let dimensions := [("width", fw); ("depth", fd); ("height", fh)] in
  let raises view (a b : option Binary64.float) :=
    Binary64.render_view view cam scene dimensions CONFIG = Err TypeError <->
    a = None \/ b = None in
  raises "front" fw fh /\ raises "back" fw fh /\
  raises "left" fd fh /\ raises "right" fd fh /\
  raises "top" fw fd.
Proof.
  cbv zeta.
  assert (H : forall view name (w h : Binary64.float) (c : Binary64.Camera),
            (scene' <- Binary64.set_render_settings scene view (Some w)
                         (Some h) 300 name ;; Ok (c, scene'))
            <> Err TypeError).
  { intros view name w h c. apply bind_not_type_error;
      [apply set_render_settings_not_type_error | discriminate]. }
  destruct fw as [w|], fd as [d|], fh as [h|];
    repeat split;
    try (intros _; reflexivity);
    try (intros [E|E]; discriminate E);
    try (now (intros _; auto));
    try (intros E; exfalso; revert E; apply H).
Qed.
